(** * mlcache: a multi-level cache orchestrator

    Shallow embedding of the Go package [github.com/gptankit/mlcache]
    (files [errs/errs.go], [validator.go], [cacher.go], [cache_key.go] and
    the mock backend of [cacher_test.go]) together with the properties of
    its traversal logic. The definitions come first: the program, then the
    notions the statements are written with; the lemmas follow.

    Modelling conventions
    - a Go [error] is [option string]: [None] is [nil], [Some m] is an error
      whose [Error()] method returns [m];
    - [uint8] and [int] values are integers in [Z]; the conversion
      [uint8(x)] is written out as [x mod 256];
    - a pointer is an [option]: [*CacheKey], [*bytes.Buffer] and [*lCache]
      may be [nil];
    - the [lCache] nodes live in an arena ([list lCache]); a [*lCache] is an
      index into it;
    - the backends plugged into the chain are caller-owned objects: they
      live in a store indexed by handles, and the [Cacher] interface values
      handed to [NewMultiLevelCache] are handles (two levels may share a
      backend; a handle outside the store is a nil interface value);
    - every call that reaches a backend is recorded, with its answer, in a
      log; [go f()] appends the task to a list of pending tasks;
    - a run-time panic (nil dereference, index out of range) is the outcome
      [Panic]; loops over pointers take fuel and yield [OutOfFuel] when it
      is exhausted. *)

From Stdlib Require Import ZArith String List Lia.
From stdpp Require Import base option list gmap strings.

Local Open Scope string_scope.
Local Open Scope list_scope.
Local Open Scope Z_scope.

(** ** Outcomes *)

Inductive Res (A : Type) : Type :=
| Val (a : A)
| Panic
| OutOfFuel.
Arguments Val {A} a.
Arguments Panic {A}.
Arguments OutOfFuel {A}.

(** ** Package errs *)

Module errs.

Definition ErrorMessage := string.
Definition error := option string.

(* func New(userMessage ErrorMessage) error *)
Definition New (userMessage : ErrorMessage) : error :=
  if decide (userMessage = "") then None else Some userMessage.

(* func Build(err error, userMessage ErrorMessage) error
   [err.Error()] on a nil interface value panics. *)
Definition Build (err : error) (userMessage : ErrorMessage) : Res error :=
  if decide (userMessage = "") then Val err
  else match err with
       | None => Panic
       | Some m => Val (Some (m ++ "; " ++ userMessage)%string)
       end.

End errs.

Abbreviation error := errs.error.

(** ** Constants and basic types of package mlcache *)

Definition CacheStatus := bool.
Definition CacheStatusSuccess : CacheStatus := true.
Definition CacheStatusFailure : CacheStatus := false.

Definition NoWorkableCacheFound : errs.ErrorMessage := "No workable cache found".
Definition MaxCacheLevelExceeded : errs.ErrorMessage := "Max cache level exceeded".
Definition MaxValLenExceeded : errs.ErrorMessage := "Max val len exceeded".
Definition InvalidReadPattern : errs.ErrorMessage := "Invalid read pattern".
Definition InvalidWritePattern : errs.ErrorMessage := "Invalid write pattern".
Definition GetError : errs.ErrorMessage := "Get error".
Definition PutError : errs.ErrorMessage := "Put error".
Definition DelError : errs.ErrorMessage := "Del error".
Definition IsPresentError : errs.ErrorMessage := "IsPresent error".
Definition FlushError : errs.ErrorMessage := "Flush error".

(* type ReadPattern uint8; type WritePattern uint8 *)
Definition ReadPattern := Z.
Definition WritePattern := Z.

Definition ReadThrough : ReadPattern := 0.
Definition CacheAside : ReadPattern := 1.
Definition endR : ReadPattern := 2.

Definition WriteThrough : WritePattern := 0.
Definition WriteAround : WritePattern := 1.
Definition WriteBack : WritePattern := 2.
Definition endW : WritePattern := 3.

Definition maxCaches : Z := 5.

(* the conversion uint8(x) *)
Definition uint8 (x : Z) : Z := x mod 256.

(* time.Time, as an instant; time.Duration in milliseconds *)
Definition Time := Z.
Definition Duration := Z.

(* the contents of a bytes.Buffer *)
Definition Buffer := string.
Definition Buffer_Len (b : Buffer) : Z := Z.of_nat (String.length b).

(** ** cache_key.go *)

(* The sync.Pool behind NewCacheKey and Done recycles key objects; it is a
   device to save allocations and is left out: a key is its string. *)
Record CacheKey : Type := mkCacheKey { key : string }.

Definition NewCacheKey (k : string) : CacheKey := mkCacheKey k.
Definition AsString (cacheKey : CacheKey) : string := key cacheKey.

(** ** validator.go *)

(* func validate(numCaches uint8, readPattern ReadPattern, writePattern WritePattern) error *)
Definition validate (numCaches : Z) (readPattern : ReadPattern)
    (writePattern : WritePattern) : error :=
  if numCaches =? 0 then errs.New NoWorkableCacheFound
  else if numCaches >? maxCaches then errs.New MaxCacheLevelExceeded
  else if readPattern >=? endR then errs.New InvalidReadPattern
  else if writePattern >=? endW then errs.New InvalidWritePattern
  else None.

(** ** The Cacher interface *)

(* A backend implementation has a state of type [B]; each method receives
   the current reading of the wall clock, the state and its arguments, and
   returns its results and the new state. *)
Class Cacher (B : Type) : Type := {
  cGet : Time -> B -> CacheKey -> (option Buffer * Time * error) * B;
  cPut : Time -> B -> CacheKey -> option Buffer -> Time -> (CacheStatus * error) * B;
  cDel : Time -> B -> CacheKey -> (CacheStatus * error) * B;
  cIsPresent : Time -> B -> CacheKey -> (CacheStatus * error) * B;
  cFlush : Time -> B -> error * B
}.

(** ** The chain of levels *)

Abbreviation handle := nat.
Abbreviation addr := nat.

(* type lCache struct { cur Cacher; prev *lCache; next *lCache } *)
Record lCache : Type := mkLCache {
  cur : handle;
  prev : option addr;
  next : option addr
}.

(* type cacher struct; [nodes] is the memory holding its lCache nodes *)
Record cacher : Type := mkCacher {
  nodes : list lCache;
  l1Cache : option addr;
  lnCache : option addr;
  numCaches : Z;
  readPattern : ReadPattern;
  writePattern : WritePattern;
  maxValSize : Z
}.

(* &lCache{...}: a fresh node at the end of the arena *)
Definition alloc (n : lCache) (hp : list lCache) : addr * list lCache :=
  (length hp, hp ++ [n]).

(* p.next = q *)
Definition set_next (p : addr) (q : option addr) (hp : list lCache)
    : option (list lCache) :=
  match hp !! p with
  | Some n => Some (<[p := mkLCache (cur n) (prev n) q]> hp)
  | None => None
  end.

(* for ci < numCaches {
     eCache.next = &lCache{cur: caches[ci], prev: eCache, next: nil}
     eCache = eCache.next
     ci++ } *)
Fixpoint link_loop (fuel : nat) (caches : list handle) (numCaches ci : Z)
    (eCache : addr) (hp : list lCache) : Res (addr * list lCache) :=
  match fuel with
  | O => OutOfFuel
  | S fuel' =>
      if ci <? numCaches then
        match caches !! Z.to_nat ci with
        | None => Panic
        | Some c =>
            let '(a, hp1) := alloc (mkLCache c (Some eCache) None) hp in
            match set_next eCache (Some a) hp1 with
            | None => Panic
            | Some hp2 => link_loop fuel' caches numCaches (uint8 (ci + 1)) a hp2
            end
        end
      else Val (eCache, hp)
  end.

(* func NewMultiLevelCache(readPattern, writePattern, maxValSize, caches ...Cacher) (Cacher, error)
   The loop counter is a uint8 below numCaches, so 256 iterations bound it. *)
Definition NewMultiLevelCache (readPattern : ReadPattern)
    (writePattern : WritePattern) (maxValSize : Z) (caches : list handle)
    : Res (option cacher * error) :=
  let numCaches := uint8 (Z.of_nat (length caches)) in
  match validate numCaches readPattern writePattern with
  | Some err => Val (None, Some err)
  | None =>
      let ci := uint8 0 in
      match caches !! Z.to_nat ci with
      | None => Panic
      | Some c =>
          let '(eCache, hp) := alloc (mkLCache c None None) [] in
          let sCache := eCache in
          let ci := uint8 (ci + 1) in
          match link_loop 256 caches numCaches ci eCache hp with
          | Val (eCache, hp) =>
              Val (Some (mkCacher hp (Some sCache) (Some eCache) numCaches
                           readPattern writePattern maxValSize), None)
          | Panic => Panic
          | OutOfFuel => OutOfFuel
          end
      end
  end.

(** ** The copy of cacher.go that has no validator *)

(* src/unnamed/part_001: the same package before validator.go existed. Its
   five operations are those of the other copy; only the constructor
   differs: it checks the number of levels itself, does not look at the
   patterns, and counts the levels in an int. *)
Module part_001.

(* for ci < int(numCaches) { ...; ci++ } *)
Fixpoint link_loop (fuel : nat) (caches : list handle) (numCaches ci : Z)
    (eCache : addr) (hp : list lCache) : Res (addr * list lCache) :=
  match fuel with
  | O => OutOfFuel
  | S fuel' =>
      if ci <? numCaches then
        match caches !! Z.to_nat ci with
        | None => Panic
        | Some c =>
            let '(a, hp1) := alloc (mkLCache c (Some eCache) None) hp in
            match set_next eCache (Some a) hp1 with
            | None => Panic
            | Some hp2 => link_loop fuel' caches numCaches (ci + 1) a hp2
            end
        end
      else Val (eCache, hp)
  end.

(* func NewMultiLevelCache(readPattern, writePattern, maxValSize, caches ...Cacher) (Cacher, error) *)
Definition NewMultiLevelCache (readPattern : ReadPattern)
    (writePattern : WritePattern) (maxValSize : Z) (caches : list handle)
    : Res (option cacher * error) :=
  let numCaches := uint8 (Z.of_nat (length caches)) in
  if numCaches =? 0 then Val (None, errs.New NoWorkableCacheFound)
  else if numCaches >? maxCaches then Val (None, errs.New MaxCacheLevelExceeded)
  else
    let ci := 0 in
    match caches !! Z.to_nat ci with
    | None => Panic
    | Some c =>
        let '(eCache, hp) := alloc (mkLCache c None None) [] in
        let sCache := eCache in
        let ci := ci + 1 in
        match link_loop 256 caches numCaches ci eCache hp with
        | Val (eCache, hp) =>
            Val (Some (mkCacher hp (Some sCache) (Some eCache) numCaches
                         readPattern writePattern maxValSize), None)
        | Panic => Panic
        | OutOfFuel => OutOfFuel
        end
    end.

End part_001.

(** ** The world: backends, call log, pending tasks, clock *)

(* a call that reached a backend, with what the backend answered *)
Inductive Event : Type :=
| EvGet (h : handle) (k : CacheKey) (r : option Buffer * Time * error)
| EvPut (h : handle) (k : CacheKey) (val : option Buffer) (ttl : Time)
        (r : CacheStatus * error)
| EvDel (h : handle) (k : CacheKey) (r : CacheStatus * error)
| EvIsPresent (h : handle) (k : CacheKey) (r : CacheStatus * error)
| EvFlush (h : handle) (r : error).

(* a goroutine started with [go], with the variables its closure captures *)
Inductive Task : Type :=
| GoBackfill (this : option addr) (k : CacheKey) (val : option Buffer) (ttl : Time)
| GoWriteBack (writeBackDelay : Duration) (this : option addr) (k : CacheKey)
              (val : option Buffer) (ttl : Time)
| GoFlush (cache : handle).

Record World (B : Type) : Type := mkWorld {
  store : list B;
  log : list Event;
  tasks : list Task;
  clock : Time
}.
Arguments mkWorld {B} _ _ _ _.
Arguments store {B} _.
Arguments log {B} _.
Arguments tasks {B} _.
Arguments clock {B} _.

(* err != nil || status == CacheStatusFailure *)
Definition failed (status : CacheStatus) (err : error) : bool :=
  match err with
  | Some _ => true
  | None => Bool.eqb status CacheStatusFailure
  end.

Declare Scope go_scope.
Delimit Scope go_scope with go.

Section Orchestrator.

Context {B : Type} `{!Cacher B}.

(** *** A state monad with panics *)

Definition M (A : Type) : Type := World B -> Res A * World B.

Definition ret {A} (a : A) : M A := fun w => (Val a, w).
Definition panic {A} : M A := fun w => (Panic, w).
Definition out_of_fuel {A} : M A := fun w => (OutOfFuel, w).

Definition bind {A R} (m : M A) (f : A -> M R) : M R :=
  fun w =>
    match m w with
    | (Val a, w') => f a w'
    | (Panic, w') => (Panic, w')
    | (OutOfFuel, w') => (OutOfFuel, w')
    end.

Definition lift {A} (r : Res A) : M A := fun w => (r, w).

Notation "x <- c1 ;; c2" := (bind c1 (fun x => c2))
  (at level 100, c1 at next level, right associativity) : go_scope.
Notation "c1 ;; c2" := (bind c1 (fun _ => c2))
  (at level 100, right associativity) : go_scope.
Local Open Scope go_scope.

(* time.Now().UTC() *)
Definition time_Now : M Time := fun w => (Val (clock w), w).

(* go f() *)
Definition go (t : Task) : M unit :=
  fun w => (Val tt, mkWorld (store w) (log w) (tasks w ++ [t]) (clock w)).

(* p.f for a pointer p into the arena *)
Definition deref (hp : list lCache) (p : option addr) : M lCache :=
  match p with
  | None => panic
  | Some a => match hp !! a with
              | None => panic
              | Some n => ret n
              end
  end.

(** *** Method calls on a backend through its interface value *)

Definition invoke {A} (h : handle) (method : Time -> B -> A * B)
    (ev : A -> Event) : M A :=
  fun w =>
    match store w !! h with
    | None => (Panic, w)
    | Some b =>
        let '(r, b') := method (clock w) b in
        (Val r, mkWorld (<[h := b']> (store w)) (log w ++ [ev r]) (tasks w) (clock w))
    end.

Definition call_Get (cache : handle) (k : CacheKey) : M (option Buffer * Time * error) :=
  invoke cache (fun now b => cGet now b k) (EvGet cache k).

Definition call_Put (cache : handle) (k : CacheKey) (val : option Buffer) (ttl : Time)
    : M (CacheStatus * error) :=
  invoke cache (fun now b => cPut now b k val ttl) (EvPut cache k val ttl).

Definition call_Del (cache : handle) (k : CacheKey) : M (CacheStatus * error) :=
  invoke cache (fun now b => cDel now b k) (EvDel cache k).

Definition call_IsPresent (cache : handle) (k : CacheKey) : M (CacheStatus * error) :=
  invoke cache (fun now b => cIsPresent now b k) (EvIsPresent cache k).

Definition call_Flush (cache : handle) : M error :=
  invoke cache (fun now b => cFlush now b) (EvFlush cache).

(** *** Loops over the chain *)

(* for this != nil { body; this = this.step }
   [body] answers [Some r] when it leaves the loop ([return r] or [break])
   and [None] when it falls through to the update of [this]. *)
Fixpoint for_each {R} (fuel : nat) (hp : list lCache) (step : lCache -> option addr)
    (body : addr -> lCache -> M (option R)) (this : option addr) : M (option R) :=
  match this with
  | None => ret None
  | Some a =>
      match fuel with
      | O => out_of_fuel
      | S fuel' =>
          match hp !! a with
          | None => panic
          | Some n =>
              r <- body a n ;;
              match r with
              | Some x => ret (Some x)
              | None => for_each fuel' hp step body (step n)
              end
          end
      end
  end.

(** *** cacher.go: the five operations *)

(* Get, case ReadThrough, inner loop:
     status, err := lower.cur.Put(key, val, ttl)
     if err != nil || status == CacheStatusFailure {
       return nil, time.Now().UTC(), err } *)
Definition backfill_body (k : CacheKey) (val : option Buffer) (ttl : Time)
    (_ : addr) (lower : lCache) : M (option (option Buffer * Time * error)) :=
  res <- call_Put (cur lower) k val ttl ;;
  let '(status, err) := res in
  if failed status err
  then now <- time_Now ;; ret (Some (None, now, err))
  else ret None.

(* Get, case ReadThrough, outer loop *)
Definition read_through_body (fuel : nat) (hp : list lCache) (k : CacheKey)
    (_ : addr) (this : lCache) : M (option (option Buffer * Time * error)) :=
  got <- call_Get (cur this) k ;;
  let '(val, ttl, _) := got in
  match val with
  | Some _ =>
      r <- for_each fuel hp prev (backfill_body k val ttl) (prev this) ;;
      match r with
      | Some x => ret (Some x)
      | None => ret (Some (val, ttl, None))
      end
  | None => ret None
  end.

(* Get, case CacheAside *)
Definition cache_aside_body (k : CacheKey)
    (a : addr) (this : lCache) : M (option (option Buffer * Time * error)) :=
  got <- call_Get (cur this) k ;;
  let '(val, ttl, _) := got in
  match val with
  | Some _ =>
      go (GoBackfill (Some a) k val ttl) ;;
      ret (Some (val, ttl, None))
  | None => ret None
  end.

(* func (ca *cacher) Get(key *CacheKey): returns a *bytes.Buffer, a
   time.Time and an error *)
Definition Get (fuel : nat) (ca : cacher) (key : option CacheKey)
    : M (option Buffer * Time * error) :=
  match key with
  | None => now <- time_Now ;; ret (None, now, errs.New GetError)
  | Some k =>
      r <- (if readPattern ca =? ReadThrough then
              for_each fuel (nodes ca) next
                (read_through_body fuel (nodes ca) k) (l1Cache ca)
            else if readPattern ca =? CacheAside then
              for_each fuel (nodes ca) next (cache_aside_body k) (l1Cache ca)
            else ret None) ;;
      match r with
      | Some x => ret x
      | None => now <- time_Now ;; ret (None, now, None)
      end
  end.

(* val != nil && val.Len() > ca.maxValSize *)
Definition too_long (val : option Buffer) (maxValSize : Z) : bool :=
  match val with
  | Some b => Buffer_Len b >? maxValSize
  | None => false
  end.

(* cacheStatus, err := cache.M(...)
   if err != nil || cacheStatus == CacheStatusFailure {
     return CacheStatusFailure, errs.Build(err, msg) } *)
Definition check (res : CacheStatus * error) (msg : errs.ErrorMessage)
    : M (option (CacheStatus * error)) :=
  let '(cacheStatus, err) := res in
  if failed cacheStatus err
  then e <- lift (errs.Build err msg) ;; ret (Some (CacheStatusFailure, e))
  else ret None.

(* Put, case WriteThrough, loop body *)
Definition write_through_body (k : CacheKey) (val : option Buffer) (ttl : Time)
    (_ : addr) (this : lCache) : M (option (CacheStatus * error)) :=
  res <- call_Put (cur this) k val ttl ;;
  check res PutError.

(* func (ca *cacher) Put(key *CacheKey, val *bytes.Buffer, ttl time.Time) (CacheStatus, error) *)
Definition Put (fuel : nat) (ca : cacher) (key : option CacheKey)
    (val : option Buffer) (ttl : Time) : M (CacheStatus * error) :=
  match key with
  | None => ret (CacheStatusFailure, errs.New PutError)
  | Some k =>
      if too_long val (maxValSize ca)
      then ret (CacheStatusFailure, errs.New MaxValLenExceeded)
      else if writePattern ca =? WriteThrough then
        r <- for_each fuel (nodes ca) next (write_through_body k val ttl)
               (l1Cache ca) ;;
        match r with
        | Some x => ret x
        | None => ret (CacheStatusSuccess, None)
        end
      else if writePattern ca =? WriteAround then
        this <- deref (nodes ca) (lnCache ca) ;;
        res <- call_Put (cur this) k val ttl ;;
        r <- check res PutError ;;
        match r with
        | Some x => ret x
        | None => ret (CacheStatusSuccess, None)
        end
      else if writePattern ca =? WriteBack then
        this <- deref (nodes ca) (l1Cache ca) ;;
        res <- call_Put (cur this) k val ttl ;;
        r <- check res PutError ;;
        match r with
        | Some x => ret x
        | None =>
            go (GoWriteBack 200 (l1Cache ca) k val ttl) ;;
            ret (CacheStatusSuccess, None)
        end
      else ret (CacheStatusSuccess, None)
  end.

(* Del, loop body *)
Definition del_body (k : CacheKey)
    (_ : addr) (this : lCache) : M (option (CacheStatus * error)) :=
  res <- call_Del (cur this) k ;;
  check res DelError.

(* func (ca *cacher) Del(key *CacheKey) (CacheStatus, error) *)
Definition Del (fuel : nat) (ca : cacher) (key : option CacheKey)
    : M (CacheStatus * error) :=
  match key with
  | None => ret (CacheStatusFailure, errs.New DelError)
  | Some k =>
      r <- for_each fuel (nodes ca) prev (del_body k) (lnCache ca) ;;
      match r with
      | Some x => ret x
      | None => ret (CacheStatusSuccess, None)
      end
  end.

(* func (ca *cacher) IsPresent(key *CacheKey) (CacheStatus, error) *)
Definition IsPresent (ca : cacher) (key : option CacheKey)
    : M (CacheStatus * error) :=
  match key with
  | None => ret (CacheStatusFailure, errs.New IsPresentError)
  | Some k =>
      this <- deref (nodes ca) (l1Cache ca) ;;
      res <- call_IsPresent (cur this) k ;;
      r <- check res IsPresentError ;;
      match r with
      | Some x => ret x
      | None => ret (CacheStatusSuccess, None)
      end
  end.

(* func (ca *cacher) Flush() error *)
Definition Flush (fuel : nat) (ca : cacher) : M error :=
  for_each (R := unit) fuel (nodes ca) next
    (fun _ this => go (GoFlush (cur this)) ;; ret None)
    (l1Cache ca) ;;
  ret None.

(** *** The bodies of the goroutines *)

Definition run_task (fuel : nat) (ca : cacher) (t : Task) : M unit :=
  match t with
  | GoBackfill p k val ttl =>
      (* lower := this.prev
         for lower != nil { lower.cur.Put(key, val, ttl); lower = lower.prev } *)
      this <- deref (nodes ca) p ;;
      for_each (R := unit) fuel (nodes ca) prev
        (fun _ lower => call_Put (cur lower) k val ttl ;; ret None)
        (prev this) ;;
      ret tt
  | GoWriteBack _ p k val ttl =>
      (* time.Sleep(writeBackDelay)
         upper := this.next
         for upper != nil {
           status, err := upper.cur.Put(key, val, ttl)
           if err != nil || status == CacheStatusFailure { break }
           upper = upper.next } *)
      this <- deref (nodes ca) p ;;
      for_each fuel (nodes ca) next
        (fun _ upper =>
           res <- call_Put (cur upper) k val ttl ;;
           let '(status, err) := res in
           if failed status err then ret (Some tt) else ret None)
        (next this) ;;
      ret tt
  | GoFlush cache => call_Flush cache ;; ret tt
  end.

End Orchestrator.

(** ** Backends *)

(* cacher_test.go: type mockCacher struct { cache map[string]*bytes.Buffer; ... } *)
Module mock.

Definition mockCacher := gmap string (option Buffer).

Definition NewMockCacher : mockCacher := ∅.

Definition Get (now : Time) (c : mockCacher) (k : CacheKey)
    : (option Buffer * Time * error) * mockCacher :=
  match c !! AsString k with
  | Some val => ((val, now, None), c)
  | None => ((None, now, errs.New "Could not get item"), c)
  end.

Definition Put (now : Time) (c : mockCacher) (k : CacheKey)
    (val : option Buffer) (expires : Time) : (CacheStatus * error) * mockCacher :=
  ((CacheStatusSuccess, None), <[AsString k := val]> c).

Definition Del (now : Time) (c : mockCacher) (k : CacheKey)
    : (CacheStatus * error) * mockCacher :=
  ((CacheStatusSuccess, None), delete (AsString k) c).

Definition IsPresent (now : Time) (c : mockCacher) (k : CacheKey)
    : (CacheStatus * error) * mockCacher :=
  match c !! AsString k with
  | Some _ => ((CacheStatusSuccess, None), c)
  | None => ((CacheStatusFailure, None), c)
  end.

Definition Flush (now : Time) (c : mockCacher) : error * mockCacher :=
  (None, ∅).

End mock.

(* The backends used in the examples below: the mock of the test suite, a
   backend that turns every request down with CacheStatusFailure and no
   error (what mockCacher.IsPresent answers for an absent key), and a
   backend that is out of service and answers every request with an
   error. *)
Inductive Backend : Type :=
| Mock (c : mock.mockCacher)
| Refusing
| OutOfService (msg : string).

#[export] Instance Backend_Cacher : Cacher Backend := {|
  cGet now b k :=
    match b with
    | Mock c => let '(r, c') := mock.Get now c k in (r, Mock c')
    | Refusing => ((None, now, None), b)
    | OutOfService msg => ((None, now, Some msg), b)
    end;
  cPut now b k val expires :=
    match b with
    | Mock c => let '(r, c') := mock.Put now c k val expires in (r, Mock c')
    | Refusing => ((CacheStatusFailure, None), b)
    | OutOfService msg => ((CacheStatusFailure, Some msg), b)
    end;
  cDel now b k :=
    match b with
    | Mock c => let '(r, c') := mock.Del now c k in (r, Mock c')
    | Refusing => ((CacheStatusFailure, None), b)
    | OutOfService msg => ((CacheStatusFailure, Some msg), b)
    end;
  cIsPresent now b k :=
    match b with
    | Mock c => let '(r, c') := mock.IsPresent now c k in (r, Mock c')
    | Refusing => ((CacheStatusFailure, None), b)
    | OutOfService msg => ((CacheStatusFailure, Some msg), b)
    end;
  cFlush now b :=
    match b with
    | Mock c => let '(r, c') := mock.Flush now c in (r, Mock c')
    | Refusing => (None, b)
    | OutOfService msg => (Some msg, b)
    end
|}.

(* a world with the given backends, an empty log and no pending task *)
Definition world_of (bs : list Backend) (now : Time) : World Backend :=
  mkWorld bs [] [] now.

(* the orchestrator built by NewMultiLevelCache, when it builds one *)
Definition built (r : Res (option cacher * error)) : cacher :=
  match r with
  | Val (Some ca, _) => ca
  | _ => mkCacher [] None None 0 0 0 0
  end.

(** ** Definitions used in the statements *)

Local Open Scope nat_scope.

(* the pointer to the level after position [i] in a chain of [n] levels *)
Definition fwd (n i : nat) : option addr :=
  if decide (i < n)%nat then Some i else None.

(* the pointer to the [j]-th level counted from 1; nil for [j = 0] *)
Definition bwd (j : nat) : option addr :=
  match j with
  | O => None
  | S i => Some i
  end.

(* the doubly linked chain over the backends [hs], laid out in order *)
Definition chain_of (hs : list handle) : list lCache :=
  imap (fun i h => mkLCache h (bwd i) (fwd (length hs) (S i))) hs.

(* the number of levels NewMultiLevelCache works with *)
Definition counted (caches : list handle) : nat :=
  Z.to_nat (uint8 (Z.of_nat (length caches))).

(* a chain of [n] levels over the first [n] backends *)
Definition chained (n : nat) (rp : ReadPattern) (wp : WritePattern) (mvs : Z)
    (caches : list handle) : cacher :=
  mkCacher (chain_of (take n caches)) (Some 0) (Some (n - 1)) (Z.of_nat n) rp wp mvs.

(* the levels of a chain with their addresses *)
Definition entries (hs : list handle) : list (addr * lCache) :=
  imap (fun i n => (i, n)) (chain_of hs).

(* the backends of the chain, from level 1 to level N *)
Definition levels (ca : cacher) : list handle := map cur (nodes ca).

(* non-empty chain, laid out in order, with its head and its tail *)
Definition wf_chain (ca : cacher) : Prop :=
  nodes ca = chain_of (levels ca) /\
  l1Cache ca = fwd (length (levels ca)) 0 /\
  lnCache ca = bwd (length (levels ca)) /\
  1 <= length (levels ca) <= 5.

(* an answer that lets a synchronous traversal go on *)
Definition ok (r : CacheStatus * error) : Prop := failed r.1 r.2 = false.

(* a fetch that found nothing, with or without an error *)
Definition miss (g : option Buffer * Time * error) : Prop := g.1.1 = None.

Section Reference.

Context {B : Type} `{!Cacher B}.

(* the loop of [for_each], over the list of the nodes it visits *)
Fixpoint for_list {R} (body : addr -> lCache -> M (option R))
    (es : list (addr * lCache)) : M (B := B) (option R) :=
  match es with
  | [] => ret None
  | (a, n) :: es' =>
      bind (body a n) (fun r =>
        match r with
        | Some x => ret (Some x)
        | None => for_list body es'
        end)
  end.

(* the same call made on each backend of a list, in the order of the list *)
Fixpoint in_turn {A} (call : handle -> M (B := B) A) (hs : list handle)
    : M (B := B) (list A) :=
  match hs with
  | [] => ret []
  | h :: hs' =>
      bind (call h) (fun a => bind (in_turn call hs') (fun rest => ret (a :: rest)))
  end.

(* every backend of [hs] is a live object of the world *)
Definition live (hs : list handle) (w : World B) : Prop :=
  Forall (fun h => h < length (store w)) hs.

(* the traversal of [hs] from [w], one call after the other, comes to a
   backend that answers CacheStatusFailure with a nil error, and [w'] is
   the world after that answer *)
Definition reaches_refusal (call : handle -> M (B := B) (CacheStatus * error))
    (hs : list handle) (w w' : World B) : Prop :=
  exists j h rs w1,
    hs !! j = Some h /\
    in_turn call (take j hs) w = (Val rs, w1) /\
    Forall ok rs /\
    call h w1 = (Val (CacheStatusFailure, None), w').

(* the calls of the five methods never run out of fuel, and panic only on
   a nil interface value *)
Definition total_call {A} (call : handle -> M (B := B) A) : Prop :=
  forall h (w : World B), h < length (store w) ->
    exists r w', call h w = (Val r, w') /\ length (store w') = length (store w).

(* the body of a loop that makes one call and checks its answer *)
Definition checked_body (call : handle -> M (B := B) (CacheStatus * error))
    (msg : errs.ErrorMessage) (_ : addr) (this : lCache)
    : M (B := B) (option (CacheStatus * error)) :=
  bind (call (cur this)) (fun res => check res msg).

(* the answer of a traversal that checks every call *)
Definition conclude (r : option (CacheStatus * error)) : M (B := B) (CacheStatus * error) :=
  match r with
  | Some x => ret x
  | None => ret (CacheStatusSuccess, None)
  end.

(* the operation never runs out of fuel, and it panics exactly when
   [refused] holds of the world it leaves *)
Definition panics_exactly_when {A} (run : Res A * World B)
    (refused : World B -> Prop) : Prop :=
  run.1 <> OutOfFuel /\ (run.1 = Panic <-> refused run.2).

(* what Put does under Write-Back once level 1 has answered *)
Definition schedule_write_back (k : CacheKey) (val : option Buffer) (ttl : Time)
    (r : option (CacheStatus * error)) : M (B := B) (CacheStatus * error) :=
  match r with
  | Some x => ret x
  | None =>
      bind (go (GoWriteBack 200%Z (Some 0) k val ttl))
        (fun _ => ret (CacheStatusSuccess, None))
  end.

(* what Get answers once its loop is over *)
Definition answer_fetch (r : option (option Buffer * Time * error))
    : M (B := B) (option Buffer * Time * error) :=
  match r with
  | Some x => ret x
  | None => bind time_Now (fun now => ret (None, now, None))
  end.

(* what the Read-Through loop does with the answer of a level *)
Definition after_fetch (fuel : nat) (hp : list lCache) (k : CacheKey)
    (_ : addr) (this : lCache) (got : option Buffer * Time * error)
    : M (B := B) (option (option Buffer * Time * error)) :=
  let '(val, ttl, _) := got in
  match val with
  | Some _ =>
      bind (for_each fuel hp prev (backfill_body k val ttl) (prev this))
        (fun r =>
           match r with
           | Some x => ret (Some x)
           | None => ret (Some (val, ttl, None))
           end)
  | None => ret None
  end.

(* what the backfill loop does with the answer of a level *)
Definition after_backfill (_ : addr) (_ : lCache) (res : CacheStatus * error)
    : M (B := B) (option (option Buffer * Time * error)) :=
  let '(status, err) := res in
  if failed status err
  then bind time_Now (fun now => ret (Some (None, now, err)))
  else ret None.

(* what the Cache-Aside loop does with the answer of a level *)
Definition after_fetch_aside (k : CacheKey)
    (a : addr) (_ : lCache) (got : option Buffer * Time * error)
    : M (B := B) (option (option Buffer * Time * error)) :=
  let '(val, ttl, _) := got in
  match val with
  | Some _ =>
      bind (go (GoBackfill (Some a) k val ttl))
        (fun _ => ret (Some (val, ttl, None)))
  | None => ret None
  end.

(* the world [w] with the list of pending tasks replaced *)
Definition with_tasks (ts : list Task) (w : World B) : World B :=
  mkWorld (store w) (log w) ts (clock w).


(* what the propagation of Write-Back does with the answer of a level *)
Definition after_propagation (_ : addr) (_ : lCache) (res : CacheStatus * error)
    : M (B := B) (option unit) :=
  let '(status, err) := res in
  if failed status err then ret (Some tt) else ret None.

(* the backfill of Cache-Aside does not look at the answer of a level *)
Definition after_aside_backfill (_ : addr) (_ : lCache) (_ : CacheStatus * error)
    : M (B := B) (option unit) :=
  ret None.

End Reference.

(** ** The backends and the orchestrators of the examples *)

Local Open Scope Z_scope.

Definition three_levels : list handle := [0; 1; 2]%nat.

Definition kafka : CacheKey := NewCacheKey "metamorphosis".
Definition sagan : CacheKey := NewCacheKey "cosmos".

(* a mock backend that holds one item *)
Definition holding (k v : string) : Backend := Mock (<[k := Some v]> ∅).

Definition through_through : cacher :=
  built (NewMultiLevelCache ReadThrough WriteThrough 100 three_levels).
Definition through_around : cacher :=
  built (NewMultiLevelCache ReadThrough WriteAround 100 three_levels).
Definition through_back : cacher :=
  built (NewMultiLevelCache ReadThrough WriteBack 100 three_levels).

(* the backend behind [h] is a mock of the test suite *)
Definition is_mock (w : World Backend) (h : handle) : Prop :=
  exists c, store w !! h = Some (Mock c).

(* the backend behind [h] is a mock whose map binds the key to [v] *)
Definition level_holds (k : CacheKey) (v : option Buffer) (w : World Backend)
    (h : handle) : Prop :=
  exists c, store w !! h = Some (Mock c) /\ c !! AsString k = Some v.

(* the backend behind [h] is a mock whose map does not bind the key *)
Definition level_lacks (k : CacheKey) (w : World Backend) (h : handle) : Prop :=
  exists c, store w !! h = Some (Mock c) /\ c !! AsString k = None.

(* closing the side conditions of the instances *)
Ltac run := vm_compute; reflexivity.
Ltac count := simpl; lia.
Ltac all_mocks :=
  repeat (apply Forall_cons_2; [eexists; reflexivity |]); apply Forall_nil_2.

Local Open Scope nat_scope.

(** * Properties *)

(** ** The chain built by NewMultiLevelCache *)

Local Open Scope nat_scope.

Lemma chain_of_length hs : length (chain_of hs) = length hs.
Proof. unfold chain_of. by rewrite length_imap. Qed.

Lemma chain_of_lookup hs i h :
  hs !! i = Some h ->
  chain_of hs !! i = Some (mkLCache h (bwd i) (fwd (length hs) (S i))).
Proof. intros Hi. unfold chain_of. by rewrite list_lookup_imap, Hi. Qed.

Lemma chain_of_lookup_None hs i :
  hs !! i = None -> chain_of hs !! i = None.
Proof. intros Hi. unfold chain_of. by rewrite list_lookup_imap, Hi. Qed.

Lemma chain_of_cur hs : map cur (chain_of hs) = hs.
Proof.
  apply list_eq. intros i. rewrite list_lookup_fmap.
  destruct (hs !! i) as [h|] eqn:Hi.
  - by rewrite (chain_of_lookup _ _ _ Hi).
  - by rewrite (chain_of_lookup_None _ _ Hi).
Qed.

(* one round of the linking loop extends the chain by one level *)
Lemma chain_of_snoc hs h :
  hs <> [] ->
  set_next (length hs - 1) (Some (length hs))
    (chain_of hs ++ [mkLCache h (Some (length hs - 1)%nat) None])
  = Some (chain_of (hs ++ [h])).
Proof.
  intros Hne.
  assert (Hlen : (0 < length hs)%nat) by (destruct hs; simpl; [done | lia]).
  destruct (lookup_lt_is_Some_2 hs (length hs - 1)) as [h0 Hh0]; [lia |].
  unfold set_next.
  rewrite lookup_app_l by (rewrite chain_of_length; lia).
  rewrite (chain_of_lookup _ _ _ Hh0). simpl.
  f_equal. apply list_eq. intros i.
  destruct (decide (i = length hs - 1)%nat) as [-> | Hi].
  - rewrite list_lookup_insert_eq
      by (rewrite length_app, chain_of_length; simpl; lia).
    rewrite (chain_of_lookup (hs ++ [h]) (length hs - 1) h0)
      by (rewrite lookup_app_l by lia; done).
    rewrite length_app. simpl. unfold fwd.
    do 2 f_equal. repeat case_decide; try lia. f_equal. lia.
  - rewrite list_lookup_insert_ne by done.
    destruct (decide (i < length hs)%nat) as [Hlt | Hge].
    + destruct (lookup_lt_is_Some_2 hs i Hlt) as [hi Hhi].
      rewrite lookup_app_l by (rewrite chain_of_length; lia).
      rewrite (chain_of_lookup _ _ _ Hhi).
      rewrite (chain_of_lookup (hs ++ [h]) i hi)
        by (rewrite lookup_app_l by lia; done).
      rewrite length_app. simpl. unfold fwd.
      do 2 f_equal. repeat case_decide; try lia; done.
    + destruct (decide (i = length hs)) as [-> | Hi'].
      * rewrite lookup_app_r by (rewrite chain_of_length; lia).
        rewrite chain_of_length, Nat.sub_diag. simpl.
        rewrite (chain_of_lookup (hs ++ [h]) (length hs) h)
          by (rewrite lookup_app_r by lia; rewrite Nat.sub_diag; done).
        rewrite length_app. simpl. unfold fwd, bwd.
        destruct (length hs) eqn:E; [lia |].
        do 2 f_equal; [f_equal; lia |].
        case_decide; [lia | done].
      * rewrite lookup_ge_None_2
          by (rewrite length_app, chain_of_length; simpl; lia).
        symmetry. apply lookup_ge_None_2.
        rewrite chain_of_length, length_app. simpl. lia.
Qed.

Lemma uint8_small (x : Z) : (0 <= x < 256)%Z -> uint8 x = x.
Proof. intros Hx. unfold uint8. by apply Z.mod_small. Qed.

Lemma uint8_range (x : Z) : (0 <= uint8 x < 256)%Z.
Proof. unfold uint8. apply Z.mod_pos_bound. lia. Qed.

Lemma uint8_le (x : Z) : (0 <= x)%Z -> (uint8 x <= x)%Z.
Proof. intros Hx. unfold uint8. apply Z.mod_le; lia. Qed.

Lemma link_loop_chain (hs : list handle) (n : nat) :
  n <= length hs -> n < 256 ->
  forall fuel c, 1 <= c <= n -> n - c < fuel ->
    link_loop fuel hs (Z.of_nat n) (Z.of_nat c) (c - 1) (chain_of (take c hs))
    = Val (n - 1, chain_of (take n hs)).
Proof.
  intros Hn Hsmall. induction fuel as [| fuel IH]; intros c Hc Hfuel; [lia |].
  simpl. destruct (Z.ltb_spec (Z.of_nat c) (Z.of_nat n)) as [Hlt | Hge].
  - rewrite Nat2Z.id.
    destruct (lookup_lt_is_Some_2 hs c) as [h Hh]; [lia |].
    rewrite Hh. unfold alloc.
    assert (Hlen : length (take c hs) = c) by (rewrite length_take; lia).
    rewrite chain_of_length, Hlen.
    pose proof (chain_of_snoc (take c hs) h) as Hsnoc.
    rewrite Hlen in Hsnoc. rewrite Hsnoc.
    2: { intros E. rewrite E in Hlen. simpl in Hlen. lia. }
    rewrite <- (take_S_r _ _ _ Hh).
    rewrite uint8_small by lia.
    replace (Z.of_nat c + 1)%Z with (Z.of_nat (S c)) by lia.
    specialize (IH (S c)). replace (S c - 1) with c in IH by lia.
    apply IH; lia.
  - replace c with n by lia. done.
Qed.

Lemma validate_None (n rp wp : Z) :
  validate n rp wp = None <->
  (n <> 0 /\ n <= maxCaches /\ rp < endR /\ wp < endW)%Z.
Proof.
  unfold validate, maxCaches, endR, endW.
  destruct (Z.eqb_spec n 0); [split; [done | lia] |].
  destruct (Z.gtb_spec n 5); [split; [done | lia] |].
  destruct (Z.geb_spec rp 2); [split; [done | lia] |].
  destruct (Z.geb_spec wp 3); [split; [done | lia] |].
  split; [lia | done].
Qed.

Lemma counted_le caches : counted caches <= length caches.
Proof.
  unfold counted. pose proof (uint8_le (Z.of_nat (length caches))). lia.
Qed.

Lemma counted_small caches : length caches < 256 -> counted caches = length caches.
Proof. intros Hl. unfold counted. rewrite uint8_small by lia. lia. Qed.

Lemma NewMultiLevelCache_accepts rp wp mvs caches :
  validate (Z.of_nat (counted caches)) rp wp = None ->
  NewMultiLevelCache rp wp mvs caches
  = Val (Some (chained (counted caches) rp wp mvs caches), None).
Proof.
  intros Hv. pose proof Hv as Hv'. apply validate_None in Hv'.
  unfold maxCaches in Hv'.
  pose proof (counted_le caches) as Hle.
  pose proof (uint8_range (Z.of_nat (length caches))) as Hr.
  unfold NewMultiLevelCache.
  replace (uint8 (Z.of_nat (length caches))) with (Z.of_nat (counted caches))
    by (unfold counted; lia).
  rewrite Hv. change (Z.to_nat (uint8 0)) with 0.
  destruct caches as [| c caches]; [unfold counted in *; simpl in *; lia |].
  change ((c :: caches) !! 0) with (Some c).
  unfold alloc. change (@length lCache []) with 0.
  change (uint8 (uint8 0 + 1)) with (Z.of_nat 1).
  pose proof (link_loop_chain (c :: caches) (counted (c :: caches))) as Hl.
  specialize (Hl Hle ltac:(lia) 256 1 ltac:(lia) ltac:(lia)).
  change (chain_of (take 1 (c :: caches))) with ([] ++ [mkLCache c None None]) in Hl.
  change (1 - 1) with 0 in Hl.
  rewrite Hl. done.
Qed.

Lemma NewMultiLevelCache_rejects rp wp mvs caches e :
  validate (Z.of_nat (counted caches)) rp wp = Some e ->
  NewMultiLevelCache rp wp mvs caches = Val (None, Some e).
Proof.
  intros Hv. unfold NewMultiLevelCache.
  pose proof (uint8_range (Z.of_nat (length caches))) as Hr.
  replace (uint8 (Z.of_nat (length caches))) with (Z.of_nat (counted caches))
    by (unfold counted; lia).
  by rewrite Hv.
Qed.

(* the two copies of the linking loop do the same *)
Lemma part_001_link_loop caches (numCaches : Z) :
  (numCaches < 256)%Z ->
  forall fuel ci eCache hp,
    (0 <= ci)%Z ->
    part_001.link_loop fuel caches numCaches ci eCache hp
    = link_loop fuel caches numCaches ci eCache hp.
Proof.
  intros Hn. induction fuel as [| fuel IH]; intros ci eCache hp Hci; [done |].
  simpl. destruct (Z.ltb_spec ci numCaches) as [Hlt | Hge]; [| done].
  destruct (caches !! Z.to_nat ci) as [c |]; [| done].
  unfold alloc. destruct (set_next _ _ _) as [hp2 |]; [| done].
  rewrite uint8_small by lia. apply IH. lia.
Qed.

(* the copy without validator builds the same orchestrator whenever the
   patterns are among the defined ones *)
Lemma part_001_NewMultiLevelCache rp wp mvs caches :
  (rp < endR)%Z -> (wp < endW)%Z ->
  part_001.NewMultiLevelCache rp wp mvs caches
  = NewMultiLevelCache rp wp mvs caches.
Proof.
  intros Hrp Hwp.
  unfold part_001.NewMultiLevelCache, NewMultiLevelCache, validate.
  pose proof (uint8_range (Z.of_nat (length caches))) as Hr.
  destruct (Z.eqb_spec (uint8 (Z.of_nat (length caches))) 0); [done |].
  destruct (Z.gtb_spec (uint8 (Z.of_nat (length caches))) maxCaches); [done |].
  destruct (Z.geb_spec rp endR); [lia |].
  destruct (Z.geb_spec wp endW); [lia |].
  change (Z.to_nat (uint8 0)) with (Z.to_nat 0).
  destruct (caches !! Z.to_nat 0) as [c |]; [| done].
  unfold alloc. change (uint8 (uint8 0 + 1)) with (0 + 1)%Z.
  by rewrite part_001_link_loop by lia.
Qed.

(** ** Loops over a chain laid out in order *)

Section Traversal.

Context {B : Type} `{!Cacher B}.

Lemma entries_length hs : length (entries hs) = length hs.
Proof. unfold entries. by rewrite length_imap, chain_of_length. Qed.

Lemma entries_lookup hs i h :
  hs !! i = Some h ->
  entries hs !! i = Some (i, mkLCache h (bwd i) (fwd (length hs) (S i))).
Proof.
  intros Hi. unfold entries.
  by rewrite list_lookup_imap, (chain_of_lookup _ _ _ Hi).
Qed.

Lemma entries_cur hs : map (fun e => cur e.2) (entries hs) = hs.
Proof.
  apply list_eq. intros i. rewrite list_lookup_fmap.
  destruct (hs !! i) as [h|] eqn:Hi.
  - by rewrite (entries_lookup _ _ _ Hi).
  - rewrite lookup_ge_None_2; [done |].
    rewrite entries_length. by apply lookup_ge_None_1.
Qed.

Lemma for_each_forward {R} (body : addr -> lCache -> M (option R)) hs :
  forall fuel i (w : World B),
    length hs - i <= fuel ->
    for_each fuel (chain_of hs) next body (fwd (length hs) i) w
    = for_list body (drop i (entries hs)) w.
Proof.
  induction fuel as [| fuel IH]; intros i w Hf; unfold fwd; case_decide;
    try lia.
  - rewrite drop_ge by (rewrite entries_length; lia). done.
  - destruct (lookup_lt_is_Some_2 hs i) as [h Hh]; [lia |].
    rewrite (drop_S _ _ _ (entries_lookup _ _ _ Hh)).
    simpl. rewrite (chain_of_lookup _ _ _ Hh). unfold bind.
    destruct (body i _ w) as [[[x |] | |] w1]; try done.
    simpl. apply IH. lia.
  - rewrite drop_ge by (rewrite entries_length; lia).
    destruct fuel; done.
Qed.

Lemma for_each_backward {R} (body : addr -> lCache -> M (option R)) hs :
  forall j fuel (w : World B),
    j <= length hs -> j <= fuel ->
    for_each fuel (chain_of hs) prev body (bwd j) w
    = for_list body (rev (take j (entries hs))) w.
Proof.
  induction j as [| i IH]; intros fuel w Hj Hf.
  - simpl. destruct fuel; done.
  - destruct fuel as [| fuel]; [lia |].
    destruct (lookup_lt_is_Some_2 hs i) as [h Hh]; [lia |].
    rewrite (take_S_r _ _ _ (entries_lookup _ _ _ Hh)).
    rewrite rev_app_distr. simpl.
    rewrite (chain_of_lookup _ _ _ Hh). unfold bind.
    destruct (body i _ w) as [[[x |] | |] w1]; try done.
    simpl. apply IH; lia.
Qed.

End Traversal.

(** ** Orchestrators with a well-formed chain *)

Lemma built_chained rp wp mvs caches ca :
  NewMultiLevelCache rp wp mvs caches = Val (Some ca, None) ->
  ca = chained (counted caches) rp wp mvs caches /\
  validate (Z.of_nat (counted caches)) rp wp = None.
Proof.
  intros Hnew.
  destruct (validate (Z.of_nat (counted caches)) rp wp) as [e |] eqn:Hv.
  - rewrite (NewMultiLevelCache_rejects _ _ _ _ _ Hv) in Hnew. done.
  - rewrite (NewMultiLevelCache_accepts _ _ _ _ Hv) in Hnew.
    split; [congruence | done].
Qed.

Lemma levels_chained n rp wp mvs caches :
  levels (chained n rp wp mvs caches) = take n caches.
Proof. unfold levels, chained. simpl. apply chain_of_cur. Qed.

Lemma built_levels rp wp mvs caches ca :
  NewMultiLevelCache rp wp mvs caches = Val (Some ca, None) ->
  levels ca = take (counted caches) caches.
Proof.
  intros Hnew. destruct (built_chained _ _ _ _ _ Hnew) as [-> _].
  apply levels_chained.
Qed.

Lemma built_levels_small rp wp mvs caches ca :
  NewMultiLevelCache rp wp mvs caches = Val (Some ca, None) ->
  length caches < 256 ->
  levels ca = caches.
Proof.
  intros Hnew Hl. rewrite (built_levels _ _ _ _ _ Hnew).
  rewrite counted_small by done. apply firstn_all.
Qed.

Lemma built_wf rp wp mvs caches ca :
  NewMultiLevelCache rp wp mvs caches = Val (Some ca, None) ->
  wf_chain ca /\ readPattern ca = rp /\ writePattern ca = wp /\
  maxValSize ca = mvs /\ (rp < endR)%Z /\ (wp < endW)%Z.
Proof.
  intros Hnew. destruct (built_chained _ _ _ _ _ Hnew) as [-> Hv].
  apply validate_None in Hv. unfold maxCaches in Hv.
  pose proof (counted_le caches) as Hle.
  assert (Hlen : length (take (counted caches) caches) = counted caches)
    by (rewrite length_take; lia).
  unfold wf_chain. rewrite levels_chained, Hlen. simpl.
  repeat split; try tauto; try lia.
  - unfold fwd. case_decide; [done | lia].
  - unfold bwd. destruct (counted caches) eqn:E; [lia |].
    f_equal. lia.
Qed.

(** ** Runs of the traversals *)

Section Runs.

Context {B : Type} `{!Cacher B}.

(** *** Calls through an interface value *)

Lemma invoke_live {A} h (method : Time -> B -> A * B) ev (w : World B) :
  h < length (store w) ->
  exists r w', invoke h method ev w = (Val r, w') /\
               length (store w') = length (store w).
Proof.
  intros Hh. destruct (lookup_lt_is_Some_2 _ _ Hh) as [b Hb].
  unfold invoke. rewrite Hb. destruct (method (clock w) b) as [r b'].
  eexists _, _. split; [done |]. simpl. by rewrite length_insert.
Qed.

Lemma invoke_Val {A} h (method : Time -> B -> A * B) ev (w w' : World B) r :
  invoke h method ev w = (Val r, w') ->
  log w' = log w ++ [ev r] /\ tasks w' = tasks w /\ clock w' = clock w /\
  length (store w') = length (store w) /\
  (forall h', h' <> h -> store w' !! h' = store w !! h').
Proof.
  unfold invoke. destruct (store w !! h) as [b |] eqn:Hb; [| done].
  destruct (method (clock w) b) as [r' b']. intros [= <- <-]. simpl.
  repeat split; try done.
  - by rewrite length_insert.
  - intros h' Hne. by rewrite list_lookup_insert_ne.
Qed.

Lemma total_call_Put k val ttl : total_call (fun h => call_Put h k val ttl).
Proof. intros h w Hh. by apply invoke_live. Qed.

Lemma total_call_Del k : total_call (fun h => call_Del h k).
Proof. intros h w Hh. by apply invoke_live. Qed.

Lemma total_call_IsPresent k : total_call (fun h => call_IsPresent h k).
Proof. intros h w Hh. by apply invoke_live. Qed.

Lemma total_call_Get k : total_call (fun h => call_Get h k).
Proof. intros h w Hh. by apply invoke_live. Qed.

(** *** Skipping the levels that let the loop go on *)

Lemma in_turn_cons {A} (call : handle -> M A) h hs (w : World B) rs w' :
  in_turn call (h :: hs) w = (Val rs, w') ->
  exists a rest w1,
    call h w = (Val a, w1) /\ in_turn call hs w1 = (Val rest, w') /\
    rs = a :: rest.
Proof.
  simpl. unfold bind, ret.
  destruct (call h w) as [[a | |] w1] eqn:Hc; try done.
  destruct (in_turn call hs w1) as [[rest | |] w2] eqn:Hr; try done.
  intros [= <- <-]. by exists a, rest, w1.
Qed.

Lemma in_turn_app {A} (call : handle -> M A) hs1 hs2 (w w1 w2 : World B) rs1 rs2 :
  in_turn call hs1 w = (Val rs1, w1) ->
  in_turn call hs2 w1 = (Val rs2, w2) ->
  in_turn call (hs1 ++ hs2) w = (Val (rs1 ++ rs2), w2).
Proof.
  revert w rs1. induction hs1 as [| h hs1 IH]; intros w rs1 H1 H2.
  - simpl in H1. unfold ret in H1. by simplify_eq.
  - apply in_turn_cons in H1 as (a & rest & w0 & Hc & Hr & ->).
    simpl. unfold bind at 1. rewrite Hc.
    unfold bind. rewrite (IH _ _ Hr H2). done.
Qed.

Lemma for_list_skip {A R} (call : handle -> M A)
    (k : addr -> lCache -> A -> M (option R)) (P : A -> Prop)
    (body : addr -> lCache -> M (option R)) :
  (forall a n w, body a n w = bind (call (cur n)) (k a n) w) ->
  (forall a n r w, P r -> k a n r w = (Val None, w)) ->
  forall es1 es2 (w w1 : World B) rs,
    in_turn call (map (fun e => cur e.2) es1) w = (Val rs, w1) ->
    Forall P rs ->
    for_list body (es1 ++ es2) w = for_list body es2 w1.
Proof.
  intros Hbody Hk. induction es1 as [| [a n] es1 IH]; intros es2 w w1 rs Hrun HP.
  - simpl in Hrun. unfold ret in Hrun. by simplify_eq.
  - simpl in Hrun.
    apply in_turn_cons in Hrun as (r & rest & w0 & Hc & Hr & ->).
    apply Forall_cons in HP as [Hr0 HP].
    simpl. unfold bind at 1. rewrite Hbody. unfold bind at 1.
    rewrite Hc, (Hk _ _ _ _ Hr0). by eapply IH.
Qed.

End Runs.

Section Checked.

Context {B : Type} `{!Cacher B}.

Lemma for_list_at {A R} (call : handle -> M A)
    (k : addr -> lCache -> A -> M (option R)) (P : A -> Prop)
    (body : addr -> lCache -> M (option R)) :
  (forall a n w, body a n w = bind (call (cur n)) (k a n) w) ->
  (forall a n r w, P r -> k a n r w = (Val None, w)) ->
  forall es j a n (w w1 : World B) rs,
    es !! j = Some (a, n) ->
    in_turn call (take j (map (fun e => cur e.2) es)) w = (Val rs, w1) ->
    Forall P rs ->
    for_list body es w
    = bind (body a n) (fun r =>
        match r with
        | Some x => ret (Some x)
        | None => for_list body (drop (S j) es)
        end) w1.
Proof.
  intros Hbody Hk es j a n w w1 rs Hj Hrun HP.
  rewrite <- (take_drop_middle es j (a, n) Hj) at 1.
  rewrite <- fmap_take in Hrun.
  by rewrite (for_list_skip call k P body Hbody Hk _ _ _ _ _ Hrun HP).
Qed.

Lemma for_list_through {A R} (call : handle -> M A)
    (k : addr -> lCache -> A -> M (option R)) (P : A -> Prop)
    (body : addr -> lCache -> M (option R)) :
  (forall a n w, body a n w = bind (call (cur n)) (k a n) w) ->
  (forall a n r w, P r -> k a n r w = (Val None, w)) ->
  forall es (w w1 : World B) rs,
    in_turn call (map (fun e => cur e.2) es) w = (Val rs, w1) ->
    Forall P rs ->
    for_list body es w = (Val None, w1).
Proof.
  intros Hbody Hk es w w1 rs Hrun HP.
  rewrite <- (app_nil_r es).
  by rewrite (for_list_skip call k P body Hbody Hk _ _ _ _ _ Hrun HP).
Qed.

(** *** The check made after each call of a synchronous traversal *)

Lemma check_ok res msg (w : World B) :
  ok res -> check res msg w = (Val None, w).
Proof. destruct res as [st err]. unfold ok, check. simpl. by intros ->. Qed.

Lemma check_error st m msg (w : World B) :
  msg <> "" ->
  check (st, Some m) msg w
  = (Val (Some (CacheStatusFailure, Some (m ++ "; " ++ msg)%string)), w).
Proof.
  intros Hmsg. unfold check, failed, errs.Build, lift, bind, ret.
  by rewrite decide_False.
Qed.

Lemma check_refusal msg (w : World B) :
  msg <> "" -> check (CacheStatusFailure, None) msg w = (Panic, w).
Proof.
  intros Hmsg. unfold check, failed, errs.Build, lift, bind. simpl.
  by rewrite decide_False.
Qed.

Lemma check_cases res msg (w : World B) :
  msg <> "" ->
  (ok res /\ check res msg w = (Val None, w)) \/
  (exists st m, res = (st, Some m) /\
     check res msg w
     = (Val (Some (CacheStatusFailure, Some (m ++ "; " ++ msg)%string)), w)) \/
  (res = (CacheStatusFailure, None) /\ check res msg w = (Panic, w)).
Proof.
  intros Hmsg. destruct res as [st [m |]].
  - right. left. exists st, m. split; [done |]. by apply check_error.
  - destruct st.
    + left. split; [done |]. by apply check_ok.
    + right. right. split; [done |]. by apply check_refusal.
Qed.

(** *** Traversals that check every answer: Put (Write-Through) and Del *)

Variable call : handle -> M (B := B) (CacheStatus * error).
Variable msg : errs.ErrorMessage.
Hypothesis msg_nonempty : msg <> "".

Lemma checked_all_ok es (w w' : World B) rs :
  in_turn call (map (fun e => cur e.2) es) w = (Val rs, w') ->
  Forall ok rs ->
  for_list (checked_body call msg) es w = (Val None, w').
Proof.
  apply (for_list_through call (fun _ _ res => check res msg) ok); [done |].
  intros _ _ r w0. apply check_ok.
Qed.

Lemma checked_at es j h (w w1 w' : World B) rs res :
  map (fun e => cur e.2) es !! j = Some h ->
  in_turn call (take j (map (fun e => cur e.2) es)) w = (Val rs, w1) ->
  Forall ok rs ->
  call h w1 = (Val res, w') ->
  ~ ok res ->
  for_list (checked_body call msg) es w
  = bind (check res msg) (fun r =>
      match r with
      | Some x => ret (Some x)
      | None => ret None
      end) w'.
Proof.
  intros Hj Hrun Hok Hcall Hres.
  rewrite list_lookup_fmap in Hj.
  destruct (es !! j) as [[a n] |] eqn:Hes; [| done].
  simpl in Hj. injection Hj as <-.
  rewrite (for_list_at call (fun _ _ res => check res msg) ok (checked_body call msg)
             ltac:(done) ltac:(intros; by apply check_ok)
             _ _ _ _ _ _ _ Hes Hrun Hok).
  unfold checked_body, bind at 1 2. rewrite Hcall.
  destruct (check_cases res msg w' msg_nonempty)
    as [[Hok' _] | [(st & m & -> & ->) | [-> ->]]]; [done | |].
  - unfold bind. by rewrite check_error.
  - unfold bind. by rewrite check_refusal.
Qed.

Lemma checked_first_error es j h (w w1 w' : World B) rs st m :
  map (fun e => cur e.2) es !! j = Some h ->
  in_turn call (take j (map (fun e => cur e.2) es)) w = (Val rs, w1) ->
  Forall ok rs ->
  call h w1 = (Val (st, Some m), w') ->
  for_list (checked_body call msg) es w
  = (Val (Some (CacheStatusFailure, Some (m ++ "; " ++ msg)%string)), w').
Proof.
  intros Hj Hrun Hok Hcall.
  rewrite (checked_at _ _ _ _ _ _ _ _ Hj Hrun Hok Hcall) by done.
  unfold bind. by rewrite check_error.
Qed.

Lemma checked_refusal es (w w' : World B) :
  reaches_refusal call (map (fun e => cur e.2) es) w w' ->
  for_list (checked_body call msg) es w = (Panic, w').
Proof.
  intros (j & h & rs & w1 & Hj & Hrun & Hok & Hcall).
  rewrite (checked_at _ _ _ _ _ _ _ _ Hj Hrun Hok Hcall) by done.
  unfold bind. by rewrite check_refusal.
Qed.

Hypothesis call_total : total_call call.

Lemma checked_outcome es (w w' : World B) r :
  live (map (fun e => cur e.2) es) w ->
  for_list (checked_body call msg) es w = (r, w') ->
  r <> OutOfFuel /\
  (r = Panic -> reaches_refusal call (map (fun e => cur e.2) es) w w').
Proof.
  revert w. induction es as [| [a n] es IH]; intros w Hlive Hrun.
  - simpl in Hrun. unfold ret in Hrun. injection Hrun as <- <-. done.
  - simpl in Hlive. apply Forall_cons in Hlive as [Hh Hlive].
    destruct (call_total _ _ Hh) as (res & w1 & Hcall & Hlen).
    simpl in Hrun. unfold checked_body in Hrun at 1. unfold bind in Hrun at 1 2.
    rewrite Hcall in Hrun.
    destruct (check_cases res msg w1 msg_nonempty)
      as [[Hok Hc] | [(st & m & -> & Hc) | [-> Hc]]]; rewrite Hc in Hrun.
    + assert (Hlive1 : live (map (fun e => cur e.2) es) w1)
        by (unfold live in *; by rewrite Hlen).
      destruct (IH _ Hlive1 Hrun) as [Hfuel Hpanic].
      split; [done |]. intros Hr.
      destruct (Hpanic Hr) as (j & h & rs & w2 & Hj & Hpre & Hoks & Hlast).
      exists (S j), h, (res :: rs), w2. simpl. repeat split; try done.
      * unfold bind. by rewrite Hcall, Hpre.
      * by apply Forall_cons.
    + unfold ret in Hrun. injection Hrun as <- <-. done.
    + injection Hrun as <- <-. split; [done |]. intros _.
      exists 0, (cur n), [], w. by repeat split.
Qed.

End Checked.

(** ** What a run leaves in the world *)

Section Traces.

Context {B : Type} `{!Cacher B}.

Lemma in_turn_length {A} (call : handle -> M A) hs (w w' : World B) rs :
  in_turn call hs w = (Val rs, w') -> length rs = length hs.
Proof.
  revert w rs. induction hs as [| h hs IH]; intros w rs Hrun.
  - simpl in Hrun. unfold ret in Hrun. by simplify_eq.
  - apply in_turn_cons in Hrun as (a & rest & w1 & _ & Hr & ->).
    simpl. f_equal. by eapply IH.
Qed.

(* the calls are logged in the order of the list; only the backends of
   the list change; no task is started *)
Lemma in_turn_trace {A} (method : Time -> B -> A * B) (ev : handle -> A -> Event)
    hs (w w' : World B) rs :
  in_turn (fun h => invoke h method (ev h)) hs w = (Val rs, w') ->
  log w' = log w ++ zip_with ev hs rs /\
  tasks w' = tasks w /\ clock w' = clock w /\
  length (store w') = length (store w) /\
  (forall h', h' ∉ hs -> store w' !! h' = store w !! h').
Proof.
  revert w rs. induction hs as [| h hs IH]; intros w rs Hrun.
  - simpl in Hrun. unfold ret in Hrun. simplify_eq. simpl.
    by rewrite app_nil_r.
  - apply in_turn_cons in Hrun as (a & rest & w1 & Hc & Hr & ->).
    apply invoke_Val in Hc as (Hlog & Htasks & Hclock & Hlen & Hframe).
    destruct (IH _ _ Hr) as (Hlog' & Htasks' & Hclock' & Hlen' & Hframe').
    simpl. repeat split; try congruence.
    + rewrite Hlog', Hlog. by rewrite <- app_assoc.
    + intros h' Hh'. apply not_elem_of_cons in Hh' as [Hne Hh'].
      rewrite Hframe' by done. by apply Hframe.
Qed.

Lemma in_turn_live {A} (call : handle -> M A) (Htotal : total_call call)
    hs (w : World B) :
  live hs w ->
  exists rs w', in_turn call hs w = (Val rs, w') /\
                length (store w') = length (store w).
Proof.
  revert w. induction hs as [| h hs IH]; intros w Hlive.
  - by exists [], w.
  - apply Forall_cons in Hlive as [Hh Hlive].
    destruct (Htotal _ _ Hh) as (a & w1 & Hc & Hlen).
    destruct (IH w1) as (rest & w2 & Hr & Hlen').
    { unfold live in *. by rewrite Hlen. }
    exists (a :: rest), w2. simpl. unfold bind. rewrite Hc, Hr.
    split; [done | congruence].
Qed.

End Traces.

(** ** The operations on a well-formed chain, as loops over its levels *)

Section Unfolding.

Context {B : Type} `{!Cacher B}.

Lemma PutError_nonempty : PutError <> "".
Proof. done. Qed.

Lemma DelError_nonempty : DelError <> "".
Proof. done. Qed.

Lemma IsPresentError_nonempty : IsPresentError <> "".
Proof. done. Qed.

Lemma entries_all hs : take (length hs) (entries hs) = entries hs.
Proof. apply take_ge. by rewrite entries_length. Qed.

Lemma rev_entries_cur hs : map (fun e => cur e.2) (rev (entries hs)) = rev hs.
Proof. by rewrite map_rev, entries_cur. Qed.

Lemma Put_write_through_unfold fuel ca k val ttl (w : World B) :
  wf_chain ca ->
  writePattern ca = WriteThrough ->
  too_long val (maxValSize ca) = false ->
  length (levels ca) <= fuel ->
  Put fuel ca (Some k) val ttl w
  = bind (for_list (checked_body (fun h => call_Put h k val ttl) PutError)
            (entries (levels ca))) conclude w.
Proof.
  intros (Hnodes & Hhead & _ & _) Hwp Hlen Hfuel.
  unfold Put. rewrite Hlen, Hwp. simpl. rewrite Hnodes, Hhead.
  change (write_through_body k val ttl)
    with (checked_body (fun h => call_Put h k val ttl) PutError).
  unfold bind at 1 2. rewrite for_each_forward by lia. by rewrite drop_0.
Qed.

Lemma Del_unfold fuel ca k (w : World B) :
  wf_chain ca ->
  length (levels ca) <= fuel ->
  Del fuel ca (Some k) w
  = bind (for_list (checked_body (fun h => call_Del h k) DelError)
            (rev (entries (levels ca)))) conclude w.
Proof.
  intros (Hnodes & _ & Htail & _) Hfuel.
  unfold Del. rewrite Hnodes, Htail.
  change (del_body k) with (checked_body (fun h => call_Del h k) DelError).
  unfold bind at 1 2. rewrite for_each_backward by lia. by rewrite entries_all.
Qed.

End Unfolding.

Section SingleLevel.

Context {B : Type} `{!Cacher B}.

Lemma single_call_outcome {R} (call : handle -> M (CacheStatus * error)) msg
    (K : option (CacheStatus * error) -> M R) h (w : World B) :
  msg <> "" ->
  total_call call ->
  h < length (store w) ->
  (forall r w0, exists x w0', K r w0 = (Val x, w0')) ->
  panics_exactly_when
    (bind (call h) (fun res => bind (check res msg) K) w)
    (fun w' => call h w = (Val (CacheStatusFailure, None), w')).
Proof.
  intros Hmsg Htotal Hh HK.
  destruct (Htotal _ _ Hh) as (res & w1 & Hcall & _).
  assert (Hrun : bind (call h) (fun res => bind (check res msg) K) w
                 = bind (check res msg) K w1)
    by (unfold bind at 1; by rewrite Hcall).
  unfold panics_exactly_when. rewrite Hrun, Hcall. clear Hrun.
  destruct (check_cases res msg w1 Hmsg)
    as [[Hok Hc] | [(st & m & -> & Hc) | [-> Hc]]];
    unfold bind; rewrite Hc.
  - destruct (HK None w1) as (x & w2 & ->). simpl.
    split; [done |]. split; [done |]. intros [= -> _]. done.
  - destruct (HK (Some (CacheStatusFailure,
                        Some (m ++ "; " ++ msg)%string)) w1) as (x & w2 & ->).
    simpl. split; [done |]. split; done.
  - simpl. split; [done |]. split; done.
Qed.

Lemma wf_head ca :
  wf_chain ca ->
  exists h, levels ca !! 0 = Some h /\
            l1Cache ca = Some 0 /\
            nodes ca !! 0 = Some (mkLCache h None (fwd (length (levels ca)) 1)).
Proof.
  intros (Hnodes & Hhead & _ & Hlen).
  destruct (lookup_lt_is_Some_2 (levels ca) 0) as [h Hh]; [lia |].
  exists h. split; [done |]. split.
  - rewrite Hhead. unfold fwd. case_decide; [done | lia].
  - rewrite Hnodes. by rewrite (chain_of_lookup _ _ _ Hh).
Qed.

Lemma wf_tail ca :
  wf_chain ca ->
  exists h, last (levels ca) = Some h /\
            lnCache ca = Some (length (levels ca) - 1) /\
            nodes ca !! (length (levels ca) - 1)
            = Some (mkLCache h (bwd (length (levels ca) - 1)) None).
Proof.
  intros (Hnodes & _ & Htail & Hlen).
  destruct (lookup_lt_is_Some_2 (levels ca) (length (levels ca) - 1))
    as [h Hh]; [lia |].
  exists h. split; [| split].
  - rewrite last_lookup. rewrite <- Hh. f_equal. lia.
  - rewrite Htail. destruct (length (levels ca)); [lia |].
    simpl. f_equal. lia.
  - rewrite Hnodes. rewrite (chain_of_lookup _ _ _ Hh).
    do 2 f_equal. unfold fwd. case_decide; [lia | done].
Qed.

Lemma Put_write_around_unfold fuel ca k val ttl h (w : World B) :
  wf_chain ca ->
  writePattern ca = WriteAround ->
  too_long val (maxValSize ca) = false ->
  last (levels ca) = Some h ->
  Put fuel ca (Some k) val ttl w
  = bind (call_Put h k val ttl)
      (fun res => bind (check res PutError) conclude) w.
Proof.
  intros Hwf Hwp Hlen Hh.
  destruct (wf_tail _ Hwf) as (h' & Hh' & Htail & Hnode).
  assert (h' = h) as -> by congruence.
  unfold Put. rewrite Hlen, Hwp. simpl.
  unfold deref. rewrite Htail, Hnode. done.
Qed.

Lemma Put_write_back_unfold fuel ca k val ttl h (w : World B) :
  wf_chain ca ->
  writePattern ca = WriteBack ->
  too_long val (maxValSize ca) = false ->
  levels ca !! 0 = Some h ->
  Put fuel ca (Some k) val ttl w
  = bind (call_Put h k val ttl)
      (fun res => bind (check res PutError) (schedule_write_back k val ttl)) w.
Proof.
  intros Hwf Hwp Hlen Hh.
  destruct (wf_head _ Hwf) as (h' & Hh' & Hhead & Hnode).
  assert (h' = h) as -> by congruence.
  unfold Put. rewrite Hlen, Hwp. simpl.
  unfold deref. rewrite Hhead, Hnode. done.
Qed.

Lemma IsPresent_unfold ca k h (w : World B) :
  wf_chain ca ->
  levels ca !! 0 = Some h ->
  IsPresent ca (Some k) w
  = bind (call_IsPresent h k)
      (fun res => bind (check res IsPresentError) conclude) w.
Proof.
  intros Hwf Hh.
  destruct (wf_head _ Hwf) as (h' & Hh' & Hhead & Hnode).
  assert (h' = h) as -> by congruence.
  unfold IsPresent, deref. rewrite Hhead, Hnode. done.
Qed.

End SingleLevel.

(** ** Store, delete and existence check *)

Section Synchronous.

Context {B : Type} `{!Cacher B}.

Lemma conclude_Val r (w : World B) : exists x w', conclude r w = (Val x, w').
Proof. destruct r; by eexists _, _. Qed.

Lemma schedule_write_back_Val k val ttl r (w : World B) :
  exists x w', schedule_write_back k val ttl r w = (Val x, w').
Proof. destruct r; by eexists _, _. Qed.

Lemma checked_loop_outcome (call : handle -> M (CacheStatus * error)) msg es
    (w : World B) :
  msg <> "" ->
  total_call call ->
  live (map (fun e => cur e.2) es) w ->
  panics_exactly_when
    (bind (for_list (checked_body call msg) es) conclude w)
    (reaches_refusal call (map (fun e => cur e.2) es) w).
Proof.
  intros Hmsg Htotal Hlive.
  destruct (for_list (checked_body call msg) es w) as [r0 w0] eqn:Hrun.
  destruct (checked_outcome call msg Hmsg Htotal es w w0 r0 Hlive Hrun)
    as [Hfuel Hpanic].
  unfold panics_exactly_when, bind. rewrite Hrun.
  destruct r0 as [r | |]; [| | done].
  - destruct (conclude_Val r w0) as (x & w1 & Hx). rewrite Hx. simpl.
    split; [done |]. split; [done |]. intros Href.
    rewrite (checked_refusal call msg Hmsg es w w1 Href) in Hrun. done.
  - simpl. split; [done |]. split; [by intros _; apply Hpanic | done].
Qed.

(* a store under Write-Through whose levels all accept the value *)
Lemma Put_write_through_all fuel ca k val ttl (w w' : World B) rs :
  wf_chain ca ->
  writePattern ca = WriteThrough ->
  too_long val (maxValSize ca) = false ->
  length (levels ca) <= fuel ->
  in_turn (fun h => call_Put h k val ttl) (levels ca) w = (Val rs, w') ->
  Forall ok rs ->
  Put fuel ca (Some k) val ttl w = (Val (CacheStatusSuccess, None), w').
Proof.
  intros Hwf Hwp Hlen Hfuel Hrun Hok.
  rewrite Put_write_through_unfold by done.
  rewrite <- (entries_cur (levels ca)) in Hrun.
  unfold bind.
  by rewrite (checked_all_ok _ PutError _ _ _ _ Hrun Hok).
Qed.

(* a store under Write-Through stopped by the error of a level *)
Lemma Put_write_through_error fuel ca k val ttl (w w1 w' : World B) j h rs st m :
  wf_chain ca ->
  writePattern ca = WriteThrough ->
  too_long val (maxValSize ca) = false ->
  length (levels ca) <= fuel ->
  levels ca !! j = Some h ->
  in_turn (fun h => call_Put h k val ttl) (take j (levels ca)) w = (Val rs, w1) ->
  Forall ok rs ->
  call_Put h k val ttl w1 = (Val (st, Some m), w') ->
  Put fuel ca (Some k) val ttl w
  = (Val (CacheStatusFailure, Some (m ++ "; Put error")%string), w').
Proof.
  intros Hwf Hwp Hlen Hfuel Hj Hrun Hok Hcall.
  rewrite Put_write_through_unfold by done.
  rewrite <- (entries_cur (levels ca)) in Hrun, Hj.
  unfold bind.
  by rewrite (checked_first_error _ PutError PutError_nonempty
                _ _ _ _ _ _ _ _ _ Hj Hrun Hok Hcall).
Qed.

(* a delete whose levels all accept *)
Lemma Del_all fuel ca k (w w' : World B) rs :
  wf_chain ca ->
  length (levels ca) <= fuel ->
  in_turn (fun h => call_Del h k) (rev (levels ca)) w = (Val rs, w') ->
  Forall ok rs ->
  Del fuel ca (Some k) w = (Val (CacheStatusSuccess, None), w').
Proof.
  intros Hwf Hfuel Hrun Hok.
  rewrite Del_unfold by done.
  rewrite <- rev_entries_cur in Hrun.
  unfold bind.
  by rewrite (checked_all_ok _ DelError _ _ _ _ Hrun Hok).
Qed.

(* a delete stopped by the error of a level *)
Lemma Del_error fuel ca k (w w1 w' : World B) j h rs st m :
  wf_chain ca ->
  length (levels ca) <= fuel ->
  rev (levels ca) !! j = Some h ->
  in_turn (fun h => call_Del h k) (take j (rev (levels ca))) w = (Val rs, w1) ->
  Forall ok rs ->
  call_Del h k w1 = (Val (st, Some m), w') ->
  Del fuel ca (Some k) w
  = (Val (CacheStatusFailure, Some (m ++ "; Del error")%string), w').
Proof.
  intros Hwf Hfuel Hj Hrun Hok Hcall.
  rewrite Del_unfold by done.
  rewrite <- rev_entries_cur in Hrun, Hj.
  unfold bind.
  by rewrite (checked_first_error _ DelError DelError_nonempty
                _ _ _ _ _ _ _ _ _ Hj Hrun Hok Hcall).
Qed.

End Synchronous.

(** ** Fetch *)

Section Fetch.

Context {B : Type} `{!Cacher B}.

Lemma after_fetch_miss fuel hp k a n got (w : World B) :
  miss got -> after_fetch fuel hp k a n got w = (Val None, w).
Proof. destruct got as [[val ttl] e]. unfold miss. simpl. by intros ->. Qed.

Lemma after_fetch_aside_miss k a n got (w : World B) :
  miss got -> after_fetch_aside k a n got w = (Val None, w).
Proof. destruct got as [[val ttl] e]. unfold miss. simpl. by intros ->. Qed.

Lemma after_backfill_ok a n res (w : World B) :
  ok res -> after_backfill a n res w = (Val None, w).
Proof. destruct res as [st err]. unfold ok. simpl. by intros ->. Qed.

Lemma Get_read_through_unfold fuel ca k (w : World B) :
  wf_chain ca ->
  readPattern ca = ReadThrough ->
  length (levels ca) <= fuel ->
  Get fuel ca (Some k) w
  = bind (for_list (read_through_body fuel (chain_of (levels ca)) k)
            (entries (levels ca))) answer_fetch w.
Proof.
  intros (Hnodes & Hhead & _ & _) Hrp Hfuel.
  unfold Get. rewrite Hrp. simpl. rewrite Hnodes, Hhead.
  unfold bind at 1 2. rewrite for_each_forward by lia. by rewrite drop_0.
Qed.

Lemma Get_cache_aside_unfold fuel ca k (w : World B) :
  wf_chain ca ->
  readPattern ca = CacheAside ->
  length (levels ca) <= fuel ->
  Get fuel ca (Some k) w
  = bind (for_list (cache_aside_body k) (entries (levels ca))) answer_fetch w.
Proof.
  intros (Hnodes & Hhead & _ & _) Hrp Hfuel.
  unfold Get. rewrite Hrp. simpl. rewrite Hnodes, Hhead.
  unfold bind at 1 2. rewrite for_each_forward by lia. by rewrite drop_0.
Qed.

(* a fetch that no level answers with a value *)
Lemma Get_all_miss fuel ca k (w w' : World B) gs :
  wf_chain ca ->
  readPattern ca = ReadThrough \/ readPattern ca = CacheAside ->
  length (levels ca) <= fuel ->
  in_turn (fun h => call_Get h k) (levels ca) w = (Val gs, w') ->
  Forall miss gs ->
  Get fuel ca (Some k) w = (Val (None, clock w', None), w').
Proof.
  intros Hwf [Hrp | Hrp] Hfuel Hrun Hmiss;
    rewrite <- (entries_cur (levels ca)) in Hrun.
  - rewrite Get_read_through_unfold by done. unfold bind at 1.
    rewrite (for_list_through (fun h => call_Get h k)
               (after_fetch fuel (chain_of (levels ca)) k) miss
               (read_through_body fuel (chain_of (levels ca)) k)
               ltac:(done) ltac:(intros; by apply after_fetch_miss)
               _ _ _ _ Hrun Hmiss).
    done.
  - rewrite Get_cache_aside_unfold by done. unfold bind at 1.
    rewrite (for_list_through (fun h => call_Get h k)
               (after_fetch_aside k) miss (cache_aside_body k)
               ltac:(done) ltac:(intros; by apply after_fetch_aside_miss)
               _ _ _ _ Hrun Hmiss).
    done.
Qed.

(* the Read-Through loop, up to the level that answers with a value *)
Lemma Get_read_through_at fuel ca k (w w0 w1 : World B) j h gs b ttl e :
  wf_chain ca ->
  readPattern ca = ReadThrough ->
  length (levels ca) <= fuel ->
  levels ca !! j = Some h ->
  in_turn (fun h => call_Get h k) (take j (levels ca)) w = (Val gs, w0) ->
  Forall miss gs ->
  call_Get h k w0 = (Val (Some b, ttl, e), w1) ->
  Get fuel ca (Some k) w
  = bind (for_list (backfill_body k (Some b) ttl)
            (rev (take j (entries (levels ca)))))
      (fun r => match r with
                | Some x => ret x
                | None => ret (Some b, ttl, None)
                end) w1.
Proof.
  intros Hwf Hrp Hfuel Hj Hrun Hmiss Hcall.
  rewrite Get_read_through_unfold by done.
  rewrite <- (entries_cur (levels ca)) in Hrun.
  pose proof (entries_lookup _ _ _ Hj) as Hes.
  unfold bind at 1.
  rewrite (for_list_at (fun h => call_Get h k)
             (after_fetch fuel (chain_of (levels ca)) k) miss
             (read_through_body fuel (chain_of (levels ca)) k)
             ltac:(done) ltac:(intros; by apply after_fetch_miss)
             _ _ _ _ _ _ _ Hes Hrun Hmiss).
  unfold read_through_body. unfold bind at 1 2. simpl. rewrite Hcall.
  assert (Hjl : j < length (levels ca)) by (by eapply lookup_lt_Some).
  unfold bind at 1 2. rewrite for_each_backward by lia.
  unfold bind.
  destruct (for_list _ _ w1) as [[[x |] | |] w2]; done.
Qed.

End Fetch.

(** ** The operations of an orchestrator built by NewMultiLevelCache *)

Section Built.

Context {B : Type} `{!Cacher B}.

Lemma built_small rp wp mvs caches ca :
  NewMultiLevelCache rp wp mvs caches = Val (Some ca, None) ->
  length caches <= 5 ->
  wf_chain ca /\ levels ca = caches /\ readPattern ca = rp /\
  writePattern ca = wp /\ maxValSize ca = mvs.
Proof.
  intros Hnew Hlen.
  destruct (built_wf _ _ _ _ _ Hnew) as (Hwf & Hrp & Hwp & Hmvs & _).
  pose proof (built_levels_small _ _ _ _ _ Hnew ltac:(lia)) as Hl.
  done.
Qed.

(* Store under Write-Through: the levels are written one after the other
   from level 1; when all accept, the store succeeds; the first level
   that answers with an error stops the store, which fails with that
   error followed by "; Put error", and the world is the one that level
   left: the levels before it keep the value, those after it were not
   called. *)
Theorem Put_write_through_run rp mvs caches ca fuel k val ttl (w : World B) :
  NewMultiLevelCache rp WriteThrough mvs caches = Val (Some ca, None) ->
  length caches <= 5 ->
  too_long val mvs = false ->
  length caches <= fuel ->
  (forall rs w',
      in_turn (fun h => call_Put h k val ttl) caches w = (Val rs, w') ->
      Forall ok rs ->
      Put fuel ca (Some k) val ttl w = (Val (CacheStatusSuccess, None), w') /\
      log w' = log w ++ zip_with (fun h r => EvPut h k val ttl r) caches rs) /\
  (forall j h rs w1 st m w',
      caches !! j = Some h ->
      in_turn (fun h => call_Put h k val ttl) (take j caches) w = (Val rs, w1) ->
      Forall ok rs ->
      call_Put h k val ttl w1 = (Val (st, Some m), w') ->
      Put fuel ca (Some k) val ttl w
      = (Val (CacheStatusFailure, Some (m ++ "; Put error")%string), w') /\
      log w' = log w ++ zip_with (fun h r => EvPut h k val ttl r) (take j caches) rs
                     ++ [EvPut h k val ttl (st, Some m)]).
Proof.
  intros Hnew Hlen Hval Hfuel.
  destruct (built_small _ _ _ _ _ Hnew Hlen) as (Hwf & Hl & _ & Hwp & Hmvs).
  split.
  - intros rs w' Hrun Hok. split.
    + apply (Put_write_through_all _ _ _ _ _ _ _ rs); try done; congruence.
    + by destruct (in_turn_trace _ (fun h r => EvPut h k val ttl r)
                     _ _ _ _ Hrun) as (-> & _).
  - intros j h rs w1 st m w' Hj Hrun Hok Hcall. split.
    + apply (Put_write_through_error _ _ _ _ _ _ w1 _ j h rs st);
        try done; congruence.
    + destruct (in_turn_trace _ (fun h r => EvPut h k val ttl r)
                  _ _ _ _ Hrun) as (Hlog & _).
      apply invoke_Val in Hcall as (-> & _). rewrite Hlog.
      by rewrite <- app_assoc.
Qed.

(* Delete: the levels are called from level N down to level 1; when all
   accept, the delete succeeds; the first level that answers with an
   error stops it. *)
Theorem Del_run rp wp mvs caches ca fuel k (w : World B) :
  NewMultiLevelCache rp wp mvs caches = Val (Some ca, None) ->
  length caches <= 5 ->
  length caches <= fuel ->
  (forall rs w',
      in_turn (fun h => call_Del h k) (rev caches) w = (Val rs, w') ->
      Forall ok rs ->
      Del fuel ca (Some k) w = (Val (CacheStatusSuccess, None), w') /\
      log w' = log w ++ zip_with (fun h r => EvDel h k r) (rev caches) rs) /\
  (forall j h rs w1 st m w',
      rev caches !! j = Some h ->
      in_turn (fun h => call_Del h k) (take j (rev caches)) w = (Val rs, w1) ->
      Forall ok rs ->
      call_Del h k w1 = (Val (st, Some m), w') ->
      Del fuel ca (Some k) w
      = (Val (CacheStatusFailure, Some (m ++ "; Del error")%string), w') /\
      log w' = log w ++ zip_with (fun h r => EvDel h k r) (take j (rev caches)) rs
                     ++ [EvDel h k (st, Some m)]).
Proof.
  intros Hnew Hlen Hfuel.
  destruct (built_small _ _ _ _ _ Hnew Hlen) as (Hwf & Hl & _).
  split.
  - intros rs w' Hrun Hok. split.
    + apply (Del_all _ _ _ _ _ rs); try done; congruence.
    + by destruct (in_turn_trace _ (fun h r => EvDel h k r)
                     _ _ _ _ Hrun) as (-> & _).
  - intros j h rs w1 st m w' Hj Hrun Hok Hcall. split.
    + apply (Del_error _ _ _ _ w1 _ j h rs st); try done; congruence.
    + destruct (in_turn_trace _ (fun h r => EvDel h k r)
                  _ _ _ _ Hrun) as (Hlog & _).
      apply invoke_Val in Hcall as (-> & _). rewrite Hlog.
      by rewrite <- app_assoc.
Qed.

(* Store under Write-Around: one call, to level N; every other backend
   and the list of tasks are as before. *)
Theorem Put_write_around_run rp mvs caches ca fuel k val ttl hN res (w w' : World B) :
  NewMultiLevelCache rp WriteAround mvs caches = Val (Some ca, None) ->
  length caches <= 5 ->
  too_long val mvs = false ->
  last caches = Some hN ->
  call_Put hN k val ttl w = (Val res, w') ->
  (ok res ->
     Put fuel ca (Some k) val ttl w = (Val (CacheStatusSuccess, None), w')) /\
  (forall st m, res = (st, Some m) ->
     Put fuel ca (Some k) val ttl w
     = (Val (CacheStatusFailure, Some (m ++ "; Put error")%string), w')) /\
  log w' = log w ++ [EvPut hN k val ttl res] /\
  tasks w' = tasks w /\
  (forall h, h <> hN -> store w' !! h = store w !! h).
Proof.
  intros Hnew Hlen Hval HN Hcall.
  destruct (built_small _ _ _ _ _ Hnew Hlen) as (Hwf & Hl & _ & Hwp & Hmvs).
  rewrite (Put_write_around_unfold fuel ca k val ttl hN)
    by (try done; congruence).
  unfold bind at 1 3. rewrite Hcall.
  apply invoke_Val in Hcall as (Hlog & Htasks & _ & _ & Hframe).
  repeat split; try done.
  - intros Hok. unfold bind. by rewrite check_ok.
  - intros st m ->. unfold bind. by rewrite check_error.
Qed.

(* Store under Write-Back: one call, to level 1; when it accepts, the
   propagation to the other levels is left as a pending task. *)
Theorem Put_write_back_run rp mvs caches ca fuel k val ttl h1 res (w w' : World B) :
  NewMultiLevelCache rp WriteBack mvs caches = Val (Some ca, None) ->
  length caches <= 5 ->
  too_long val mvs = false ->
  caches !! 0 = Some h1 ->
  call_Put h1 k val ttl w = (Val res, w') ->
  (ok res ->
     Put fuel ca (Some k) val ttl w
     = (Val (CacheStatusSuccess, None),
        mkWorld (store w') (log w')
          (tasks w' ++ [GoWriteBack 200%Z (Some 0) k val ttl]) (clock w'))) /\
  (forall st m, res = (st, Some m) ->
     Put fuel ca (Some k) val ttl w
     = (Val (CacheStatusFailure, Some (m ++ "; Put error")%string), w')) /\
  log w' = log w ++ [EvPut h1 k val ttl res] /\
  tasks w' = tasks w /\
  (forall h, h <> h1 -> store w' !! h = store w !! h).
Proof.
  intros Hnew Hlen Hval H1 Hcall.
  destruct (built_small _ _ _ _ _ Hnew Hlen) as (Hwf & Hl & _ & Hwp & Hmvs).
  rewrite (Put_write_back_unfold fuel ca k val ttl h1)
    by (try done; congruence).
  unfold bind at 1 3. rewrite Hcall.
  apply invoke_Val in Hcall as (Hlog & Htasks & _ & _ & Hframe).
  repeat split; try done.
  - intros Hok. unfold bind. by rewrite check_ok.
  - intros st m ->. unfold bind. by rewrite check_error.
Qed.

End Built.

(** ** The claims about store, fetch and delete *)

Section Claims.

Context {B : Type} `{!Cacher B}.

(** C6: whatever the write policy, a store with a nil key fails at once
    with "Put error", and a store with a key and a value longer than the
    size bound fails at once with "Max val len exceeded"; in both cases
    the world is the one before the call: no level was called, no backend
    changed, no task was started. *)
Theorem Put_rejects_before_any_level fuel ca val ttl (w : World B) :
  Put fuel ca None val ttl w = (Val (CacheStatusFailure, Some "Put error"), w) /\
  (forall k b,
      (Buffer_Len b > maxValSize ca)%Z ->
      Put fuel ca (Some k) (Some b) ttl w
      = (Val (CacheStatusFailure, Some "Max val len exceeded"), w)).
Proof.
  split; [done |]. intros k b Hlen. unfold Put, too_long.
  destruct (Z.gtb_spec (Buffer_Len b) (maxValSize ca)); [done | lia].
Qed.

(** C7: under Read-Through, a fetch with a key asks the levels from level
    1 on and stops at the first one that answers with a value (level
    j+1); it then writes that value, with the expiry the level gave, into
    the levels before it, from the nearest one down to level 1, each write
    starting in the world the previous one left; when all these writes
    are accepted the fetch returns the value and the expiry, with no
    error. *)
Theorem Get_read_through_hit wp mvs caches ca fuel k (w w0 w1 w2 : World B)
    j h gs b ttl e ps :
  NewMultiLevelCache ReadThrough wp mvs caches = Val (Some ca, None) ->
  length caches <= 5 ->
  length caches <= fuel ->
  caches !! j = Some h ->
  in_turn (fun h => call_Get h k) (take j caches) w = (Val gs, w0) ->
  Forall miss gs ->
  call_Get h k w0 = (Val (Some b, ttl, e), w1) ->
  in_turn (fun h => call_Put h k (Some b) ttl) (rev (take j caches)) w1
  = (Val ps, w2) ->
  Forall ok ps ->
  Get fuel ca (Some k) w = (Val (Some b, ttl, None), w2) /\
  log w2 = log w
           ++ zip_with (fun h g => EvGet h k g) (take j caches) gs
           ++ [EvGet h k (Some b, ttl, e)]
           ++ zip_with (fun h p => EvPut h k (Some b) ttl p) (rev (take j caches)) ps.
Proof.
  intros Hnew Hlen Hfuel Hj Hscan Hmiss Hhit Hfill Hok.
  destruct (built_small _ _ _ _ _ Hnew Hlen) as (Hwf & Hl & Hrp & _).
  split.
  - rewrite (Get_read_through_at fuel ca k w w0 w1 j h gs b ttl e);
      try done; try congruence.
    assert (Hcur : map (fun e => cur e.2) (rev (take j (entries (levels ca))))
                   = rev (take j caches))
      by (by rewrite map_rev, fmap_take, entries_cur, Hl).
    rewrite <- Hcur in Hfill. unfold bind.
    rewrite (for_list_through (fun h => call_Put h k (Some b) ttl)
               after_backfill ok (backfill_body k (Some b) ttl)
               ltac:(by intros ? [] ?) ltac:(intros; by apply after_backfill_ok)
               _ _ _ _ Hfill Hok).
    done.
  - destruct (in_turn_trace _ (fun h g => EvGet h k g) _ _ _ _ Hscan)
      as (Hlog0 & _).
    apply invoke_Val in Hhit as (Hlog1 & _).
    destruct (in_turn_trace _ (fun h p => EvPut h k (Some b) ttl p)
                _ _ _ _ Hfill) as (Hlog2 & _).
    rewrite Hlog2, Hlog1, Hlog0. by rewrite <- !app_assoc.
Qed.

(* Under Read-Through, when a write of the backfill is not accepted, the
   fetch stops there and returns no value, the reading of the clock and
   the error that write returned. *)
Theorem Get_read_through_backfill_stops wp mvs caches ca fuel k
    (w w0 w1 w2 w3 : World B) j h gs b ttl e i h' ps st err :
  NewMultiLevelCache ReadThrough wp mvs caches = Val (Some ca, None) ->
  length caches <= 5 ->
  length caches <= fuel ->
  caches !! j = Some h ->
  in_turn (fun h => call_Get h k) (take j caches) w = (Val gs, w0) ->
  Forall miss gs ->
  call_Get h k w0 = (Val (Some b, ttl, e), w1) ->
  rev (take j caches) !! i = Some h' ->
  in_turn (fun h => call_Put h k (Some b) ttl) (take i (rev (take j caches))) w1
  = (Val ps, w2) ->
  Forall ok ps ->
  call_Put h' k (Some b) ttl w2 = (Val (st, err), w3) ->
  failed st err = true ->
  Get fuel ca (Some k) w = (Val (None, clock w3, err), w3).
Proof.
  intros Hnew Hlen Hfuel Hj Hscan Hmiss Hhit Hi Hfill Hok Hput Hfail.
  destruct (built_small _ _ _ _ _ Hnew Hlen) as (Hwf & Hl & Hrp & _).
  rewrite (Get_read_through_at fuel ca k w w0 w1 j h gs b ttl e);
    try done; try congruence.
  assert (Hcur : map (fun e => cur e.2) (rev (take j (entries (levels ca))))
                 = rev (take j caches))
    by (by rewrite map_rev, fmap_take, entries_cur, Hl).
  rewrite <- Hcur in Hfill, Hi.
  rewrite list_lookup_fmap in Hi.
  destruct (rev (take j (entries (levels ca))) !! i) as [[a n] |] eqn:Hes;
    [| done].
  simpl in Hi. injection Hi as <-.
  unfold bind at 1.
  rewrite (for_list_at (fun h => call_Put h k (Some b) ttl)
             after_backfill ok (backfill_body k (Some b) ttl)
             ltac:(by intros ? [] ?) ltac:(intros; by apply after_backfill_ok)
             _ _ _ _ _ _ _ Hes Hfill Hok).
  unfold backfill_body, bind. rewrite Hput, Hfail. done.
Qed.

(** C8: under Read-Through and under Cache-Aside, a fetch with a key to
    which every level answers without a value, with or without an error,
    returns no value and no error, after having asked every level from
    level 1 to level N. *)
Theorem Get_miss rp wp mvs caches ca fuel k (w w' : World B) gs :
  NewMultiLevelCache rp wp mvs caches = Val (Some ca, None) ->
  length caches <= 5 ->
  length caches <= fuel ->
  rp = ReadThrough \/ rp = CacheAside ->
  in_turn (fun h => call_Get h k) caches w = (Val gs, w') ->
  Forall miss gs ->
  Get fuel ca (Some k) w = (Val (None, clock w', None), w') /\
  log w' = log w ++ zip_with (fun h g => EvGet h k g) caches gs.
Proof.
  intros Hnew Hlen Hfuel Hrp Hscan Hmiss.
  destruct (built_small _ _ _ _ _ Hnew Hlen) as (Hwf & Hl & Hrp' & _).
  split.
  - apply (Get_all_miss _ _ _ _ _ gs); try done; congruence.
  - by destruct (in_turn_trace _ (fun h g => EvGet h k g) _ _ _ _ Hscan)
      as (-> & _).
Qed.

(** C10: store (under each of the three write policies), delete and
    existence check wrap the error of a level with [errs.Build], which
    calls [Error()] on it. On an orchestrator built by NewMultiLevelCache
    over live backends these operations always terminate, and they panic
    exactly when the traversal comes to a level that answers
    CacheStatusFailure with a nil error: for Write-Through any level
    reached from level 1, for Write-Around level N, for Write-Back and the
    existence check level 1, for delete any level reached from level N. *)
Theorem refusal_panics rp wp mvs caches ca fuel k val ttl h1 hN (w : World B) :
  NewMultiLevelCache rp wp mvs caches = Val (Some ca, None) ->
  length caches <= 5 ->
  length caches <= fuel ->
  live caches w ->
  too_long val mvs = false ->
  caches !! 0 = Some h1 ->
  last caches = Some hN ->
  (wp = WriteThrough ->
     panics_exactly_when (Put fuel ca (Some k) val ttl w)
       (reaches_refusal (fun h => call_Put h k val ttl) caches w)) /\
  (wp = WriteAround ->
     panics_exactly_when (Put fuel ca (Some k) val ttl w)
       (fun w' => call_Put hN k val ttl w = (Val (CacheStatusFailure, None), w'))) /\
  (wp = WriteBack ->
     panics_exactly_when (Put fuel ca (Some k) val ttl w)
       (fun w' => call_Put h1 k val ttl w = (Val (CacheStatusFailure, None), w'))) /\
  panics_exactly_when (Del fuel ca (Some k) w)
    (reaches_refusal (fun h => call_Del h k) (rev caches) w) /\
  panics_exactly_when (IsPresent ca (Some k) w)
    (fun w' => call_IsPresent h1 k w = (Val (CacheStatusFailure, None), w')).
Proof.
  intros Hnew Hlen Hfuel Hlive Hval H1 HN.
  destruct (built_small _ _ _ _ _ Hnew Hlen) as (Hwf & Hl & _ & Hwp & Hmvs).
  assert (Hh1 : h1 < length (store w)).
  { unfold live in Hlive. rewrite Forall_lookup in Hlive. by eapply Hlive. }
  assert (HhN : hN < length (store w)).
  { unfold live in Hlive. rewrite Forall_forall in Hlive. apply Hlive.
    rewrite last_lookup in HN. by eapply list_elem_of_lookup_2. }
  split; [| split; [| split; [| split]]].
  - intros ->. rewrite Put_write_through_unfold by (try done; congruence).
    replace caches with (map (fun e => cur e.2) (entries (levels ca)))
      by (by rewrite entries_cur).
    apply checked_loop_outcome.
    + apply PutError_nonempty.
    + apply total_call_Put.
    + by rewrite entries_cur, Hl.
  - intros ->.
    rewrite (Put_write_around_unfold fuel ca k val ttl hN)
      by (try done; congruence).
    apply (single_call_outcome (fun h => call_Put h k val ttl) PutError
             conclude hN w); try done.
    + apply total_call_Put.
    + apply conclude_Val.
  - intros ->.
    rewrite (Put_write_back_unfold fuel ca k val ttl h1)
      by (try done; congruence).
    apply (single_call_outcome (fun h => call_Put h k val ttl) PutError
             (schedule_write_back k val ttl) h1 w); try done.
    + apply total_call_Put.
    + apply schedule_write_back_Val.
  - rewrite Del_unfold by (try done; congruence).
    replace (rev caches) with (map (fun e => cur e.2) (rev (entries (levels ca))))
      by (by rewrite rev_entries_cur, Hl).
    apply checked_loop_outcome.
    + apply DelError_nonempty.
    + apply total_call_Del.
    + rewrite rev_entries_cur, Hl. unfold live in *.
      by apply Forall_rev.
  - rewrite (IsPresent_unfold ca k h1) by (try done; congruence).
    apply (single_call_outcome (fun h => call_IsPresent h k) IsPresentError
             conclude h1 w); try done.
    + apply total_call_IsPresent.
    + apply conclude_Val.
Qed.

End Claims.

(** ** Construction *)

(* With fewer than 256 backends the count is not truncated, and
   NewMultiLevelCache answers as validate does. *)
Theorem NewMultiLevelCache_validates rp wp mvs caches :
  length caches < 256 ->
  (length caches = 0 ->
     NewMultiLevelCache rp wp mvs caches
     = Val (None, Some "No workable cache found")) /\
  (5 < length caches ->
     NewMultiLevelCache rp wp mvs caches
     = Val (None, Some "Max cache level exceeded")) /\
  (1 <= length caches <= 5 -> (endR <= rp)%Z ->
     NewMultiLevelCache rp wp mvs caches
     = Val (None, Some "Invalid read pattern")) /\
  (1 <= length caches <= 5 -> (rp < endR)%Z -> (endW <= wp)%Z ->
     NewMultiLevelCache rp wp mvs caches
     = Val (None, Some "Invalid write pattern")) /\
  (1 <= length caches <= 5 -> (rp < endR)%Z -> (wp < endW)%Z ->
     NewMultiLevelCache rp wp mvs caches
     = Val (Some (chained (length caches) rp wp mvs caches), None)).
Proof.
  intros Hsmall. pose proof (counted_small _ Hsmall) as Hc.
  unfold endR, endW.
  repeat split.
  - intros H0. apply NewMultiLevelCache_rejects. rewrite Hc, H0. done.
  - intros H5. apply NewMultiLevelCache_rejects. rewrite Hc.
    unfold validate, maxCaches.
    destruct (Z.eqb_spec (Z.of_nat (length caches)) 0); [lia |].
    destruct (Z.gtb_spec (Z.of_nat (length caches)) 5); [done | lia].
  - intros Hn Hrp. apply NewMultiLevelCache_rejects. rewrite Hc.
    unfold validate, maxCaches, endR.
    destruct (Z.eqb_spec (Z.of_nat (length caches)) 0); [lia |].
    destruct (Z.gtb_spec (Z.of_nat (length caches)) 5); [lia |].
    destruct (Z.geb_spec rp 2); [done | lia].
  - intros Hn Hrp Hwp. apply NewMultiLevelCache_rejects. rewrite Hc.
    unfold validate, maxCaches, endR, endW.
    destruct (Z.eqb_spec (Z.of_nat (length caches)) 0); [lia |].
    destruct (Z.gtb_spec (Z.of_nat (length caches)) 5); [lia |].
    destruct (Z.geb_spec rp 2); [lia |].
    destruct (Z.geb_spec wp 3); [done | lia].
  - intros Hn Hrp Hwp. rewrite <- Hc. apply NewMultiLevelCache_accepts.
    apply validate_None. unfold maxCaches, endR, endW. rewrite Hc. lia.
Qed.

(** ** Runs on the backends of the test suite *)

Local Open Scope Z_scope.

(* the chain built over three backends *)
Example NewMultiLevelCache_3 :
  NewMultiLevelCache ReadThrough WriteThrough 100 [0; 1; 2]%nat
  = Val (Some (mkCacher
                 [mkLCache 0%nat None (Some 1%nat);
                  mkLCache 1%nat (Some 0%nat) (Some 2%nat);
                  mkLCache 2%nat (Some 1%nat) None]
                 (Some 0%nat) (Some 2%nat) 3 ReadThrough WriteThrough 100),
         None).
Proof. vm_compute. reflexivity. Qed.

(** C1: under Write-Through, with three levels of which the second answers
    CacheStatusFailure and a nil error, the store writes level 1, calls
    level 2 and then panics in [errs.Build]: no failure is returned to the
    caller. Level 1 keeps the value and level 3 is not called. *)
Theorem Put_write_through_refusal :
  Put 3 through_through (Some kafka) (Some "franzkafka") 5000
    (world_of [Mock ∅; Refusing; Mock ∅] 7)
  = (Panic,
     mkWorld [holding "metamorphosis" "franzkafka"; Refusing; Mock ∅]
       [EvPut 0%nat kafka (Some "franzkafka") 5000 (CacheStatusSuccess, None);
        EvPut 1%nat kafka (Some "franzkafka") 5000 (CacheStatusFailure, None)]
       [] 7).
Proof. vm_compute. reflexivity. Qed.

(* the copy without validator takes any pattern *)
Example part_001_takes_any_pattern :
  part_001.NewMultiLevelCache 7 9 100 [0%nat]
  = Val (Some (mkCacher [mkLCache 0%nat None None] (Some 0%nat) (Some 0%nat) 1
                 7 9 100), None).
Proof. vm_compute. reflexivity. Qed.

(** C2: the number of levels is converted to uint8 before it is checked.
    With 257 backends NewMultiLevelCache returns an orchestrator of one
    level and no error, and with 256 backends it fails with "No workable
    cache found"; in neither case with "Max cache level exceeded". *)
Theorem NewMultiLevelCache_count_wraps :
  NewMultiLevelCache ReadThrough WriteThrough 100 (seq 0 257)
  = Val (Some (mkCacher [mkLCache 0%nat None None] (Some 0%nat) (Some 0%nat) 1
                 ReadThrough WriteThrough 100), None) /\
  NewMultiLevelCache ReadThrough WriteThrough 100 (seq 0 256)
  = Val (None, Some "No workable cache found").
Proof. split; vm_compute; reflexivity. Qed.

(** C3: under Read-Through, with two levels of which the second holds the
    value and the first answers CacheStatusFailure and a nil error to the
    backfill, the fetch returns no value and a nil error: the answer of a
    miss. The failure of the backfill is not reported. *)
Theorem Get_read_through_backfill_refusal :
  Get 2 (built (NewMultiLevelCache ReadThrough WriteThrough 100 [0; 1]%nat))
    (Some sagan) (world_of [Refusing; holding "cosmos" "carlsagan"] 7)
  = (Val (None, 7, None),
     mkWorld [Refusing; holding "cosmos" "carlsagan"]
       [EvGet 0%nat sagan (None, 7, None);
        EvGet 1%nat sagan (Some "carlsagan", 7, None);
        EvPut 0%nat sagan (Some "carlsagan") 7 (CacheStatusFailure, None)]
       [] 7).
Proof. vm_compute. reflexivity. Qed.

(** C4: under Write-Around, with a level N that answers CacheStatusFailure
    and a nil error, the store calls level N only and then panics in
    [errs.Build]: no failure is returned to the caller. *)
Theorem Put_write_around_refusal :
  Put 3 through_around (Some sagan) (Some "carlsagan") 5000
    (world_of [Mock ∅; Mock ∅; Refusing] 7)
  = (Panic,
     mkWorld [Mock ∅; Mock ∅; Refusing]
       [EvPut 2%nat sagan (Some "carlsagan") 5000 (CacheStatusFailure, None)]
       [] 7).
Proof. vm_compute. reflexivity. Qed.

(** C5: under Write-Back, with a level 1 that answers CacheStatusFailure
    and a nil error, the store calls level 1 only and then panics in
    [errs.Build]: no failure is returned to the caller, and no task is
    started. *)
Theorem Put_write_back_refusal :
  Put 3 through_back (Some kafka) (Some "franzkafka") 5000
    (world_of [Refusing; Mock ∅; Mock ∅] 7)
  = (Panic,
     mkWorld [Refusing; Mock ∅; Mock ∅]
       [EvPut 0%nat kafka (Some "franzkafka") 5000 (CacheStatusFailure, None)]
       [] 7).
Proof. vm_compute. reflexivity. Qed.

(** C9: with three levels of which the second answers CacheStatusFailure
    and a nil error, the delete removes the key from level 3, calls level 2
    and then panics in [errs.Build]: no failure is returned to the caller.
    Level 3 stays deleted and level 1 is not called. *)
Theorem Del_refusal :
  Del 3 through_through (Some kafka)
    (world_of [holding "metamorphosis" "franzkafka"; Refusing;
               holding "metamorphosis" "franzkafka"] 7)
  = (Panic,
     mkWorld [holding "metamorphosis" "franzkafka"; Refusing; Mock ∅]
       [EvDel 2%nat kafka (CacheStatusSuccess, None);
        EvDel 1%nat kafka (CacheStatusFailure, None)]
       [] 7).
Proof. vm_compute. reflexivity. Qed.

(** ** The scenarios of the test suite *)

(* Read-Through with Write-Through: the store reaches the three levels and
   the fetch returns the value *)
Example store_then_fetch_through :
  let w1 := (Put 3 through_through (Some kafka) (Some "franzkafka") 5000
               (world_of [Mock ∅; Mock ∅; Mock ∅] 7)).2 in
  store w1 = [holding "metamorphosis" "franzkafka";
              holding "metamorphosis" "franzkafka";
              holding "metamorphosis" "franzkafka"] /\
  (Get 3 through_through (Some kafka) w1).1 = Val (Some "franzkafka", 7, None).
Proof. split; vm_compute; reflexivity. Qed.

(* Read-Through with Write-Around: the store reaches level 3 only; the
   fetch returns the value and leaves it at the three levels *)
Example store_then_fetch_around :
  let w1 := (Put 3 through_around (Some sagan) (Some "carlsagan") 5000
               (world_of [Mock ∅; Mock ∅; Mock ∅] 7)).2 in
  store w1 = [Mock ∅; Mock ∅; holding "cosmos" "carlsagan"] /\
  (Get 3 through_around (Some sagan) w1).1 = Val (Some "carlsagan", 7, None) /\
  store (Get 3 through_around (Some sagan) w1).2
  = [holding "cosmos" "carlsagan"; holding "cosmos" "carlsagan";
     holding "cosmos" "carlsagan"].
Proof. repeat split; vm_compute; reflexivity. Qed.

(* Read-Through with Write-Back: when the store returns, level 1 alone has
   the value and the propagation is pending; once that goroutine has run,
   the three levels have it *)
Example store_then_fetch_back :
  let w1 := (Put 3 through_back (Some kafka) (Some "franzkafka") 5000
               (world_of [Mock ∅; Mock ∅; Mock ∅] 7)).2 in
  store w1 = [holding "metamorphosis" "franzkafka"; Mock ∅; Mock ∅] /\
  tasks w1 = [GoWriteBack 200 (Some 0%nat) kafka (Some "franzkafka") 5000] /\
  (Get 3 through_back (Some kafka) w1).1 = Val (Some "franzkafka", 7, None) /\
  store (run_task 3 through_back
           (GoWriteBack 200 (Some 0%nat) kafka (Some "franzkafka") 5000) w1).2
  = [holding "metamorphosis" "franzkafka";
     holding "metamorphosis" "franzkafka";
     holding "metamorphosis" "franzkafka"].
Proof. repeat split; vm_compute; reflexivity. Qed.

(* Cache-Aside: the fetch returns the value found at level 3 and leaves the
   backfill of levels 2 and 1 to a goroutine *)
Example fetch_aside :
  Get 3 (built (NewMultiLevelCache CacheAside WriteAround 100 three_levels))
    (Some sagan) (world_of [Mock ∅; Mock ∅; holding "cosmos" "carlsagan"] 7)
  = (Val (Some "carlsagan", 7, None),
     mkWorld [Mock ∅; Mock ∅; holding "cosmos" "carlsagan"]
       [EvGet 0%nat sagan (None, 7, Some "Could not get item");
        EvGet 1%nat sagan (None, 7, Some "Could not get item");
        EvGet 2%nat sagan (Some "carlsagan", 7, None)]
       [GoBackfill (Some 2%nat) sagan (Some "carlsagan") 7] 7).
Proof. vm_compute. reflexivity. Qed.

(* a level that is out of service stops a store under Write-Through: the
   error comes back with the suffix of the operation, level 1 keeps the
   value *)
Example store_through_out_of_service :
  Put 3 through_through (Some kafka) (Some "franzkafka") 5000
    (world_of [Mock ∅; OutOfService "disk full"; Mock ∅] 7)
  = (Val (CacheStatusFailure, Some "disk full; Put error"),
     mkWorld [holding "metamorphosis" "franzkafka"; OutOfService "disk full"; Mock ∅]
       [EvPut 0%nat kafka (Some "franzkafka") 5000 (CacheStatusSuccess, None);
        EvPut 1%nat kafka (Some "franzkafka") 5000 (CacheStatusFailure, Some "disk full")]
       [] 7).
Proof. vm_compute. reflexivity. Qed.

(* a store of ten bytes against a bound of five *)
Lemma Put_rejects_before_any_level_witness :
  (Buffer_Len "franzkafka"
   > maxValSize (built (NewMultiLevelCache ReadThrough WriteBack 5 three_levels)))%Z /\
  Put 3 (built (NewMultiLevelCache ReadThrough WriteBack 5 three_levels))
    (Some kafka) (Some "franzkafka") 5000 (world_of [Mock ∅; Mock ∅; Mock ∅] 7)
  = (Val (CacheStatusFailure, Some "Max val len exceeded"),
     world_of [Mock ∅; Mock ∅; Mock ∅] 7).
Proof.
  split; [vm_compute; reflexivity |].
  apply (proj2 (Put_rejects_before_any_level 3
                  (built (NewMultiLevelCache ReadThrough WriteBack 5 three_levels))
                  (Some "franzkafka") 5000
                  (world_of [Mock ∅; Mock ∅; Mock ∅] 7))).
  vm_compute. reflexivity.
Defined.

(* the value sits at level 3 only, as after a store under Write-Around;
   the fetch finds it there and writes it to level 2, then to level 1 *)
Lemma Get_read_through_hit_witness :
  Get 3 through_around (Some sagan)
    (world_of [Mock ∅; Mock ∅; holding "cosmos" "carlsagan"] 7)
  = (Val (Some "carlsagan", 7, None),
     mkWorld [holding "cosmos" "carlsagan"; holding "cosmos" "carlsagan";
              holding "cosmos" "carlsagan"]
       [EvGet 0%nat sagan (None, 7, Some "Could not get item");
        EvGet 1%nat sagan (None, 7, Some "Could not get item");
        EvGet 2%nat sagan (Some "carlsagan", 7, None);
        EvPut 1%nat sagan (Some "carlsagan") 7 (CacheStatusSuccess, None);
        EvPut 0%nat sagan (Some "carlsagan") 7 (CacheStatusSuccess, None)]
       [] 7).
Proof.
  pose (w0 := mkWorld [Mock ∅; Mock ∅; holding "cosmos" "carlsagan"]
                [EvGet 0%nat sagan (None, 7, Some "Could not get item");
                 EvGet 1%nat sagan (None, 7, Some "Could not get item")]
                [] 7).
  pose (w1 := mkWorld [Mock ∅; Mock ∅; holding "cosmos" "carlsagan"]
                [EvGet 0%nat sagan (None, 7, Some "Could not get item");
                 EvGet 1%nat sagan (None, 7, Some "Could not get item");
                 EvGet 2%nat sagan (Some "carlsagan", 7, None)]
                [] 7).
  refine (proj1 (Get_read_through_hit WriteAround 100 three_levels through_around
                   3 sagan _ w0 w1 _ 2 2%nat
                   [(None, 7, Some "Could not get item");
                    (None, 7, Some "Could not get item")]
                   "carlsagan" 7 None
                   [(CacheStatusSuccess, None); (CacheStatusSuccess, None)]
                   _ _ _ _ _ _ _ _ _)).
  - vm_compute. reflexivity.
  - simpl. lia.
  - simpl. lia.
  - reflexivity.
  - vm_compute. reflexivity.
  - repeat constructor.
  - vm_compute. reflexivity.
  - vm_compute. reflexivity.
  - repeat constructor.
Defined.

(* three empty levels: every level is asked and none has the key *)
Lemma Get_miss_witness :
  Get 3 (built (NewMultiLevelCache CacheAside WriteThrough 100 three_levels))
    (Some kafka) (world_of [Mock ∅; Mock ∅; Mock ∅] 7)
  = (Val (None, 7, None),
     mkWorld [Mock ∅; Mock ∅; Mock ∅]
       [EvGet 0%nat kafka (None, 7, Some "Could not get item");
        EvGet 1%nat kafka (None, 7, Some "Could not get item");
        EvGet 2%nat kafka (None, 7, Some "Could not get item")]
       [] 7).
Proof.
  refine (proj1 (Get_miss CacheAside WriteThrough 100 three_levels
                   (built (NewMultiLevelCache CacheAside WriteThrough 100 three_levels))
                   3 kafka (world_of [Mock ∅; Mock ∅; Mock ∅] 7)
                   (mkWorld [Mock ∅; Mock ∅; Mock ∅]
                      [EvGet 0%nat kafka (None, 7, Some "Could not get item");
                       EvGet 1%nat kafka (None, 7, Some "Could not get item");
                       EvGet 2%nat kafka (None, 7, Some "Could not get item")]
                      [] 7)
                   [(None, 7, Some "Could not get item");
                    (None, 7, Some "Could not get item");
                    (None, 7, Some "Could not get item")]
                   _ _ _ _ _ _)).
  - vm_compute. reflexivity.
  - simpl. lia.
  - simpl. lia.
  - right. reflexivity.
  - vm_compute. reflexivity.
  - repeat constructor.
Defined.

(* the mock of the test suite answers CacheStatusFailure and a nil error
   when asked for a key it does not hold: the existence check panics *)
Lemma refusal_panics_witness :
  (IsPresent through_through (Some kafka)
     (world_of [Mock ∅; Mock ∅; Mock ∅] 7)).1 = Panic.
Proof.
  destruct (refusal_panics ReadThrough WriteThrough 100 three_levels
              through_through 3 kafka (Some "franzkafka") 5000 0%nat 2%nat
              (world_of [Mock ∅; Mock ∅; Mock ∅] 7))
    as (_ & _ & _ & _ & _ & Hiff).
  - vm_compute. reflexivity.
  - simpl. lia.
  - simpl. lia.
  - repeat constructor.
  - reflexivity.
  - reflexivity.
  - reflexivity.
  - apply Hiff. vm_compute. reflexivity.
Defined.

(** * Further properties of the operations *)

Local Open Scope nat_scope.

Section Further.

Context {B : Type} `{!Cacher B}.

(** ** Pending tasks do not matter to the calls *)

Lemma invoke_with_tasks {A} h (method : Time -> B -> A * B) ev ts (w : World B) :
  invoke h method ev (with_tasks ts w)
  = ((invoke h method ev w).1, with_tasks ts (invoke h method ev w).2).
Proof.
  unfold invoke, with_tasks. simpl.
  destruct (store w !! h) as [b |]; [| done].
  by destruct (method (clock w) b).
Qed.

Lemma in_turn_with_tasks {A} (method : Time -> B -> A * B) (ev : handle -> A -> Event)
    ts hs (w w' : World B) rs :
  in_turn (fun h => invoke h method (ev h)) hs w = (Val rs, w') ->
  in_turn (fun h => invoke h method (ev h)) hs (with_tasks ts w)
  = (Val rs, with_tasks ts w').
Proof.
  revert w rs. induction hs as [| h hs IH]; intros w rs Hrun.
  - simpl in Hrun. unfold ret in Hrun. by simplify_eq.
  - apply in_turn_cons in Hrun as (a & rest & w1 & Hc & Hr & ->).
    simpl. unfold bind at 1. rewrite invoke_with_tasks, Hc. simpl.
    unfold bind. by rewrite (IH _ _ Hr).
Qed.

(** ** Fetch under Cache-Aside *)

(* Under Cache-Aside a fetch asks the levels from level 1 on, stops at the
   first one that answers with a value and returns that value and its
   expiry at once; the only trace of the backfill is one pending task, and
   no level has been written. *)
Theorem Get_cache_aside_hit wp mvs caches ca fuel k (w w0 w1 : World B)
    j h gs b ttl e :
  NewMultiLevelCache CacheAside wp mvs caches = Val (Some ca, None) ->
  length caches <= 5 ->
  length caches <= fuel ->
  caches !! j = Some h ->
  in_turn (fun h => call_Get h k) (take j caches) w = (Val gs, w0) ->
  Forall miss gs ->
  call_Get h k w0 = (Val (Some b, ttl, e), w1) ->
  Get fuel ca (Some k) w
  = (Val (Some b, ttl, None),
     with_tasks (tasks w ++ [GoBackfill (Some j) k (Some b) ttl]) w1) /\
  log w1 = log w ++ zip_with (fun h g => EvGet h k g) (take j caches) gs
                 ++ [EvGet h k (Some b, ttl, e)].
Proof.
  intros Hnew Hlen Hfuel Hj Hscan Hmiss Hhit.
  destruct (built_small _ _ _ _ _ Hnew Hlen) as (Hwf & Hl & Hrp & _).
  destruct (in_turn_trace _ (fun h g => EvGet h k g) _ _ _ _ Hscan)
    as (Hlog0 & Htasks0 & _).
  pose proof Hhit as Hhit'.
  apply invoke_Val in Hhit' as (Hlog1 & Htasks1 & _).
  split.
  - rewrite Get_cache_aside_unfold by (try done; congruence).
    rewrite <- Hl in Hscan, Hj.
    rewrite <- (entries_cur (levels ca)) in Hscan.
    pose proof (entries_lookup _ _ _ Hj) as Hes.
    unfold bind at 1.
    rewrite (for_list_at (fun h => call_Get h k) (after_fetch_aside k) miss
               (cache_aside_body k)
               ltac:(done) ltac:(intros; by apply after_fetch_aside_miss)
               _ _ _ _ _ _ _ Hes Hscan Hmiss).
    unfold cache_aside_body. unfold bind at 1 2. simpl. rewrite Hhit.
    unfold bind, go, ret, with_tasks. simpl. by rewrite Htasks1, Htasks0.
  - rewrite Hlog1, Hlog0. by rewrite <- app_assoc.
Qed.

(** ** Clear-all *)



(** ** Existence check *)

(* IsPresent asks level 1 and no other level: it succeeds when level 1
   accepts, and fails with the error of level 1 followed by
   "; IsPresent error" when level 1 answers with an error. *)
Theorem IsPresent_run rp wp mvs caches ca k h1 res (w w' : World B) :
  NewMultiLevelCache rp wp mvs caches = Val (Some ca, None) ->
  length caches <= 5 ->
  caches !! 0 = Some h1 ->
  call_IsPresent h1 k w = (Val res, w') ->
  (ok res -> IsPresent ca (Some k) w = (Val (CacheStatusSuccess, None), w')) /\
  (forall st m, res = (st, Some m) ->
     IsPresent ca (Some k) w
     = (Val (CacheStatusFailure, Some (m ++ "; IsPresent error")%string), w')) /\
  log w' = log w ++ [EvIsPresent h1 k res] /\
  tasks w' = tasks w /\
  (forall h, h <> h1 -> store w' !! h = store w !! h).
Proof.
  intros Hnew Hlen H1 Hcall.
  destruct (built_small _ _ _ _ _ Hnew Hlen) as (Hwf & Hl & _).
  rewrite (IsPresent_unfold ca k h1) by (try done; congruence).
  unfold bind at 1 3. rewrite Hcall.
  apply invoke_Val in Hcall as (Hlog & Htasks & _ & _ & Hframe).
  repeat split; try done.
  - intros Hok. unfold bind. by rewrite check_ok.
  - intros st m ->. unfold bind. by rewrite check_error.
Qed.

(** ** Keys, values and bounds *)

(* A nil key is turned down by fetch, delete and existence check before
   anything else happens, each with the error of its own operation. *)
Theorem nil_key_rejected fuel ca (w : World B) :
  Get fuel ca None w = (Val (None, clock w, Some "Get error"), w) /\
  Del fuel ca None w = (Val (CacheStatusFailure, Some "Del error"), w) /\
  IsPresent ca None w = (Val (CacheStatusFailure, Some "IsPresent error"), w).
Proof. done. Qed.

(* NewMultiLevelCache does not look at the size bound: a negative bound is
   accepted, and the orchestrator so built turns down every buffer, the
   empty one included, before any level is called. *)
Theorem negative_bound_rejects_every_buffer rp wp mvs caches fuel k b ttl (w : World B) :
  1 <= length caches <= 5 ->
  (rp < endR)%Z -> (wp < endW)%Z ->
  (mvs < 0)%Z ->
  exists ca,
    NewMultiLevelCache rp wp mvs caches = Val (Some ca, None) /\
    Put fuel ca (Some k) (Some b) ttl w
    = (Val (CacheStatusFailure, Some "Max val len exceeded"), w).
Proof.
  intros Hlen Hrp Hwp Hmvs.
  exists (chained (counted caches) rp wp mvs caches).
  assert (Hc : counted caches = length caches) by (apply counted_small; lia).
  split.
  - apply NewMultiLevelCache_accepts. apply validate_None.
    unfold maxCaches. rewrite Hc. lia.
  - unfold Put, too_long, chained, Buffer_Len. simpl.
    destruct (Z.gtb_spec (Z.of_nat (String.length b)) mvs); [done | lia].
Qed.

End Further.

(** ** The goroutines *)

Section Goroutines.

Context {B : Type} `{!Cacher B}.

Lemma drop_entries_cur i hs :
  map (fun e => cur e.2) (drop i (entries hs)) = drop i hs.
Proof. by rewrite fmap_drop, entries_cur. Qed.

Lemma rev_take_entries_cur j hs :
  map (fun e => cur e.2) (rev (take j (entries hs))) = rev (take j hs).
Proof. by rewrite map_rev, fmap_take, entries_cur. Qed.

Lemma bind_same_rest {A R} (m1 m2 : M A) (K : A -> M R) (w : World B) :
  m1 w = m2 w -> bind m1 K w = bind m2 K w.
Proof. unfold bind. by intros ->. Qed.

Lemma wf_node ca i h :
  wf_chain ca ->
  levels ca !! i = Some h ->
  nodes ca !! i = Some (mkLCache h (bwd i) (fwd (length (levels ca)) (S i))).
Proof. intros (Hnodes & _) Hi. rewrite Hnodes. by apply chain_of_lookup. Qed.

(* the propagation of Write-Back, as a loop over the levels after level 1 *)
Lemma run_write_back_unfold fuel ca d k val ttl (w : World B) :
  wf_chain ca ->
  length (levels ca) <= fuel ->
  run_task fuel ca (GoWriteBack d (Some 0) k val ttl) w
  = bind (for_list
            (fun a n => bind (call_Put (cur n) k val ttl) (after_propagation a n))
            (drop 1 (entries (levels ca))))
      (fun _ => ret tt) w.
Proof.
  intros Hwf Hfuel.
  destruct (wf_head _ Hwf) as (h & Hh & _ & Hnode).
  destruct Hwf as (Hnodes & _).
  unfold run_task, deref. rewrite Hnode. unfold bind at 1, ret at 1.
  simpl next. rewrite Hnodes. apply bind_same_rest.
  by rewrite for_each_forward by lia.
Qed.

(* the backfill of Cache-Aside, as a loop over the levels before the hit *)
Lemma run_backfill_unfold fuel ca j h k val ttl (w : World B) :
  wf_chain ca ->
  length (levels ca) <= fuel ->
  levels ca !! j = Some h ->
  run_task fuel ca (GoBackfill (Some j) k val ttl) w
  = bind (for_list
            (fun a n => bind (call_Put (cur n) k val ttl) (after_aside_backfill a n))
            (rev (take j (entries (levels ca)))))
      (fun _ => ret tt) w.
Proof.
  intros Hwf Hfuel Hj.
  pose proof (wf_node _ _ _ Hwf Hj) as Hnode.
  assert (Hjl : j < length (levels ca)) by (by eapply lookup_lt_Some).
  destruct Hwf as (Hnodes & _).
  unfold run_task, deref. rewrite Hnode. unfold bind at 1, ret at 1.
  simpl prev. rewrite Hnodes. apply bind_same_rest.
  by rewrite for_each_backward by lia.
Qed.

Lemma run_write_back_all fuel ca d k val ttl (w w' : World B) rs :
  wf_chain ca ->
  length (levels ca) <= fuel ->
  in_turn (fun h => call_Put h k val ttl) (drop 1 (levels ca)) w = (Val rs, w') ->
  Forall ok rs ->
  run_task fuel ca (GoWriteBack d (Some 0) k val ttl) w = (Val tt, w').
Proof.
  intros Hwf Hfuel Hrun Hok.
  rewrite run_write_back_unfold by done.
  rewrite <- drop_entries_cur in Hrun. unfold bind at 1.
  rewrite (for_list_through (fun h => call_Put h k val ttl) after_propagation ok
             (fun a n => bind (call_Put (cur n) k val ttl) (after_propagation a n))
             ltac:(done)
             ltac:(by intros ? ? [st err] ?; unfold ok; simpl; intros ->)
             _ _ _ _ Hrun Hok).
  done.
Qed.

Lemma run_write_back_stops fuel ca d k val ttl (w w1 w' : World B) j h rs res :
  wf_chain ca ->
  length (levels ca) <= fuel ->
  drop 1 (levels ca) !! j = Some h ->
  in_turn (fun h => call_Put h k val ttl) (take j (drop 1 (levels ca))) w
  = (Val rs, w1) ->
  Forall ok rs ->
  call_Put h k val ttl w1 = (Val res, w') ->
  failed res.1 res.2 = true ->
  run_task fuel ca (GoWriteBack d (Some 0) k val ttl) w = (Val tt, w').
Proof.
  intros Hwf Hfuel Hj Hrun Hok Hcall Hfail.
  rewrite run_write_back_unfold by done.
  rewrite <- drop_entries_cur in Hrun, Hj.
  rewrite list_lookup_fmap in Hj.
  destruct (drop 1 (entries (levels ca)) !! j) as [[a n] |] eqn:Hes; [| done].
  simpl in Hj. injection Hj as <-.
  unfold bind at 1.
  rewrite (for_list_at (fun h => call_Put h k val ttl) after_propagation ok
             (fun a n => bind (call_Put (cur n) k val ttl) (after_propagation a n))
             ltac:(done)
             ltac:(by intros ? ? [st err] ?; unfold ok; simpl; intros ->)
             _ _ _ _ _ _ _ Hes Hrun Hok).
  unfold bind at 1 2. rewrite Hcall. destruct res as [st err].
  simpl in Hfail. unfold after_propagation. rewrite Hfail. done.
Qed.

Lemma run_backfill_all fuel ca j h k val ttl (w w' : World B) rs :
  wf_chain ca ->
  length (levels ca) <= fuel ->
  levels ca !! j = Some h ->
  in_turn (fun h => call_Put h k val ttl) (rev (take j (levels ca))) w
  = (Val rs, w') ->
  run_task fuel ca (GoBackfill (Some j) k val ttl) w = (Val tt, w').
Proof.
  intros Hwf Hfuel Hj Hrun.
  rewrite (run_backfill_unfold fuel ca j h) by done.
  rewrite <- rev_take_entries_cur in Hrun. unfold bind at 1.
  rewrite (for_list_through (fun h => call_Put h k val ttl) after_aside_backfill
             (fun _ => True)
             (fun a n => bind (call_Put (cur n) k val ttl) (after_aside_backfill a n))
             ltac:(done) ltac:(done)
             _ _ _ _ Hrun ltac:(by apply Forall_forall)).
  done.
Qed.

(* The goroutine started by a store under Write-Back writes the levels
   after level 1 in increasing order. It ends when all have accepted, or
   at the first level that does not accept, whose answer it drops: it
   never panics on a failure status with a nil error. *)
Theorem write_back_task_run rp wp mvs caches ca fuel d k val ttl (w : World B) :
  NewMultiLevelCache rp wp mvs caches = Val (Some ca, None) ->
  length caches <= 5 ->
  length caches <= fuel ->
  (forall rs w',
      in_turn (fun h => call_Put h k val ttl) (drop 1 caches) w = (Val rs, w') ->
      Forall ok rs ->
      run_task fuel ca (GoWriteBack d (Some 0) k val ttl) w = (Val tt, w')) /\
  (forall j h rs w1 res w',
      drop 1 caches !! j = Some h ->
      in_turn (fun h => call_Put h k val ttl) (take j (drop 1 caches)) w
      = (Val rs, w1) ->
      Forall ok rs ->
      call_Put h k val ttl w1 = (Val res, w') ->
      failed res.1 res.2 = true ->
      run_task fuel ca (GoWriteBack d (Some 0) k val ttl) w = (Val tt, w')).
Proof.
  intros Hnew Hlen Hfuel.
  destruct (built_small _ _ _ _ _ Hnew Hlen) as (Hwf & Hl & _).
  split.
  - intros rs w' Hrun Hok.
    apply (run_write_back_all _ _ _ _ _ _ _ _ rs); try done; congruence.
  - intros j h rs w1 res w' Hj Hrun Hok Hcall Hfail.
    apply (run_write_back_stops _ _ _ _ _ _ _ w1 _ j h rs res);
      try done; congruence.
Qed.

(* The goroutine started by a fetch under Cache-Aside that found the value
   at level j+1 writes it to every level before, from the nearest one down
   to level 1, whatever these levels answer. *)
Theorem cache_aside_task_run wp mvs caches ca fuel j h k val ttl (w w' : World B) rs :
  NewMultiLevelCache CacheAside wp mvs caches = Val (Some ca, None) ->
  length caches <= 5 ->
  length caches <= fuel ->
  caches !! j = Some h ->
  in_turn (fun h => call_Put h k val ttl) (rev (take j caches)) w = (Val rs, w') ->
  run_task fuel ca (GoBackfill (Some j) k val ttl) w = (Val tt, w') /\
  log w' = log w ++ zip_with (fun h r => EvPut h k val ttl r) (rev (take j caches)) rs.
Proof.
  intros Hnew Hlen Hfuel Hj Hrun.
  destruct (built_small _ _ _ _ _ Hnew Hlen) as (Hwf & Hl & _).
  split.
  - apply (run_backfill_all _ _ _ h _ _ _ _ _ rs); try done; congruence.
  - by destruct (in_turn_trace _ (fun h r => EvPut h k val ttl r) _ _ _ _ Hrun)
      as (-> & _).
Qed.

End Goroutines.

(** ** Asynchronous policies against synchronous ones *)

Section CatchingUp.

Context {B : Type} `{!Cacher B}.

Lemma Get_read_through_found fuel ca k (w w0 w1 w2 : World B) j h gs b ttl e ps :
  wf_chain ca ->
  readPattern ca = ReadThrough ->
  length (levels ca) <= fuel ->
  levels ca !! j = Some h ->
  in_turn (fun h => call_Get h k) (take j (levels ca)) w = (Val gs, w0) ->
  Forall miss gs ->
  call_Get h k w0 = (Val (Some b, ttl, e), w1) ->
  in_turn (fun h => call_Put h k (Some b) ttl) (rev (take j (levels ca))) w1
  = (Val ps, w2) ->
  Forall ok ps ->
  Get fuel ca (Some k) w = (Val (Some b, ttl, None), w2).
Proof.
  intros Hwf Hrp Hfuel Hj Hscan Hmiss Hhit Hfill Hok.
  rewrite (Get_read_through_at fuel ca k w w0 w1 j h gs b ttl e) by done.
  rewrite <- rev_take_entries_cur in Hfill. unfold bind.
  rewrite (for_list_through (fun h => call_Put h k (Some b) ttl)
             after_backfill ok (backfill_body k (Some b) ttl)
             ltac:(by intros ? [] ?) ltac:(intros; by apply after_backfill_ok)
             _ _ _ _ Hfill Hok).
  done.
Qed.

Lemma Get_cache_aside_found fuel ca k (w w0 w1 : World B) j h gs b ttl e :
  wf_chain ca ->
  readPattern ca = CacheAside ->
  length (levels ca) <= fuel ->
  levels ca !! j = Some h ->
  in_turn (fun h => call_Get h k) (take j (levels ca)) w = (Val gs, w0) ->
  Forall miss gs ->
  call_Get h k w0 = (Val (Some b, ttl, e), w1) ->
  Get fuel ca (Some k) w
  = (Val (Some b, ttl, None),
     with_tasks (tasks w1 ++ [GoBackfill (Some j) k (Some b) ttl]) w1).
Proof.
  intros Hwf Hrp Hfuel Hj Hscan Hmiss Hhit.
  rewrite Get_cache_aside_unfold by done.
  rewrite <- (entries_cur (levels ca)) in Hscan.
  pose proof (entries_lookup _ _ _ Hj) as Hes.
  unfold bind at 1.
  rewrite (for_list_at (fun h => call_Get h k) (after_fetch_aside k) miss
             (cache_aside_body k)
             ltac:(done) ltac:(intros; by apply after_fetch_aside_miss)
             _ _ _ _ _ _ _ Hes Hscan Hmiss).
  unfold cache_aside_body. unfold bind at 1 2. simpl. by rewrite Hhit.
Qed.


(* When every backfill write is accepted, a fetch under Cache-Aside
   followed by the goroutine it started leaves the backends and the log of
   calls exactly as the fetch under Read-Through does, and both return the
   same value and expiry. *)
Theorem cache_aside_catches_up wp mvs caches ca_r ca_a fuel k
    (w w0 w1 w2 : World B) j h gs b ttl e ps :
  NewMultiLevelCache ReadThrough wp mvs caches = Val (Some ca_r, None) ->
  NewMultiLevelCache CacheAside wp mvs caches = Val (Some ca_a, None) ->
  length caches <= 5 ->
  length caches <= fuel ->
  caches !! j = Some h ->
  in_turn (fun h => call_Get h k) (take j caches) w = (Val gs, w0) ->
  Forall miss gs ->
  call_Get h k w0 = (Val (Some b, ttl, e), w1) ->
  in_turn (fun h => call_Put h k (Some b) ttl) (rev (take j caches)) w1
  = (Val ps, w2) ->
  Forall ok ps ->
  Get fuel ca_r (Some k) w = (Val (Some b, ttl, None), w2) /\
  exists wa,
    Get fuel ca_a (Some k) w = (Val (Some b, ttl, None), wa) /\
    tasks wa = tasks w ++ [GoBackfill (Some j) k (Some b) ttl] /\
    run_task fuel ca_a (GoBackfill (Some j) k (Some b) ttl) wa
    = (Val tt, with_tasks (tasks wa) w2).
Proof.
  intros Hnew_r Hnew_a Hlen Hfuel Hj Hscan Hmiss Hhit Hfill Hok.
  destruct (built_small _ _ _ _ _ Hnew_r Hlen) as (Hwf_r & Hl_r & Hrp_r & _).
  destruct (built_small _ _ _ _ _ Hnew_a Hlen) as (Hwf_a & Hl_a & Hrp_a & _).
  destruct (in_turn_trace _ (fun h g => EvGet h k g) _ _ _ _ Hscan)
    as (_ & Htasks0 & _).
  pose proof Hhit as Hhit'.
  apply invoke_Val in Hhit' as (_ & Htasks1 & _).
  split.
  { apply (Get_read_through_found fuel ca_r k w w0 w1 w2 j h gs b ttl e ps);
      try done; congruence. }
  exists (with_tasks (tasks w1 ++ [GoBackfill (Some j) k (Some b) ttl]) w1).
  split; [| split].
  - apply (Get_cache_aside_found fuel ca_a k w w0 w1 j h gs b ttl e);
      try done; congruence.
  - simpl. by rewrite Htasks1, Htasks0.
  - apply (run_backfill_all _ _ _ h _ _ _ _ _ ps); try done; try congruence.
    rewrite Hl_a.
    by apply (in_turn_with_tasks _ (fun h r => EvPut h k (Some b) ttl r)).
Qed.

End CatchingUp.

(** ** Construction, once more *)

(* NewMultiLevelCache never panics: it returns either an orchestrator and a
   nil error, or no orchestrator and an error. *)
Theorem NewMultiLevelCache_outcome rp wp mvs caches :
  (exists ca, NewMultiLevelCache rp wp mvs caches = Val (Some ca, None)) \/
  (exists e, NewMultiLevelCache rp wp mvs caches = Val (None, Some e)).
Proof.
  destruct (validate (Z.of_nat (counted caches)) rp wp) as [e |] eqn:Hv.
  - right. exists e. by apply NewMultiLevelCache_rejects.
  - left. eexists. by apply NewMultiLevelCache_accepts.
Qed.

(* The chain of an orchestrator built by NewMultiLevelCache: its levels are
   the first backends given, as many as the uint8 count says; the head is
   the first node and the tail the last one; every node points back to the
   node before it and forth to the node after it; the head has no
   predecessor and the tail no successor. *)
Theorem NewMultiLevelCache_chain rp wp mvs caches ca :
  NewMultiLevelCache rp wp mvs caches = Val (Some ca, None) ->
  levels ca = take (counted caches) caches /\
  1 <= length (levels ca) <= 5 /\
  numCaches ca = Z.of_nat (length (levels ca)) /\
  l1Cache ca = Some 0 /\
  lnCache ca = Some (length (levels ca) - 1) /\
  length (nodes ca) = length (levels ca) /\
  (forall i n, nodes ca !! i = Some n ->
     prev n = (if decide (i = 0) then None else Some (i - 1)) /\
     next n = (if decide (i + 1 < length (levels ca)) then Some (i + 1) else None)).
Proof.
  intros Hnew.
  destruct (built_wf _ _ _ _ _ Hnew) as (Hwf & _).
  pose proof (built_levels _ _ _ _ _ Hnew) as Hl.
  destruct (wf_head _ Hwf) as (_ & _ & Hhead & _).
  destruct (wf_tail _ Hwf) as (_ & _ & Htail & _).
  pose proof Hwf as (Hnodes & _ & _ & Hn).
  destruct (built_chained _ _ _ _ _ Hnew) as [Hca _].
  repeat split; try done; try lia.
  - rewrite Hca at 1. simpl. rewrite Hl, length_take.
    pose proof (counted_le caches). lia.
  - unfold levels. by rewrite length_map.
  - destruct (levels ca !! i) as [h |] eqn:Hi.
    + rewrite (wf_node _ _ _ Hwf Hi) in H. injection H as <-. simpl.
      unfold bwd. destruct i; [done |]. case_decide; [lia |]. f_equal. lia.
    + rewrite Hnodes, (chain_of_lookup_None _ _ Hi) in H. done.
  - destruct (levels ca !! i) as [h |] eqn:Hi.
    + rewrite (wf_node _ _ _ Hwf Hi) in H. injection H as <-. simpl.
      unfold fwd. repeat case_decide; try lia; try done. f_equal. lia.
    + rewrite Hnodes, (chain_of_lookup_None _ _ Hi) in H. done.
Qed.

(* The backends after the first [len(caches) mod 256] are never looked at:
   NewMultiLevelCache answers as it does on that prefix alone. *)
Theorem NewMultiLevelCache_ignores_beyond_count rp wp mvs caches :
  NewMultiLevelCache rp wp mvs caches
  = NewMultiLevelCache rp wp mvs (take (counted caches) caches).
Proof.
  pose proof (counted_le caches) as Hle.
  assert (Hlt : counted caches < 256).
  { unfold counted. pose proof (uint8_range (Z.of_nat (length caches))). lia. }
  assert (Hc : counted (take (counted caches) caches) = counted caches).
  { rewrite counted_small; rewrite length_take; lia. }
  destruct (validate (Z.of_nat (counted caches)) rp wp) as [e |] eqn:Hv.
  - rewrite (NewMultiLevelCache_rejects _ _ _ caches e Hv).
    symmetry. apply NewMultiLevelCache_rejects. by rewrite Hc.
  - rewrite (NewMultiLevelCache_accepts _ _ _ caches Hv).
    rewrite (NewMultiLevelCache_accepts _ _ _ (take (counted caches) caches))
      by (by rewrite Hc).
    rewrite Hc. unfold chained. by rewrite take_take, Nat.min_id.
Qed.

(** ** The copy without validator and the undefined patterns *)

Lemma part_001_accepts rp wp mvs caches :
  1 <= length caches <= 5 ->
  part_001.NewMultiLevelCache rp wp mvs caches
  = Val (Some (chained (length caches) rp wp mvs caches), None).
Proof.
  intros Hlen. unfold part_001.NewMultiLevelCache.
  rewrite uint8_small by lia. unfold maxCaches.
  destruct (Z.eqb_spec (Z.of_nat (length caches)) 0); [lia |].
  destruct (Z.gtb_spec (Z.of_nat (length caches)) 5); [lia |].
  destruct caches as [| c caches]; [simpl in Hlen; lia |].
  change ((c :: caches) !! Z.to_nat 0) with (Some c).
  unfold alloc. change (@length lCache []) with 0.
  rewrite part_001_link_loop by lia.
  pose proof (link_loop_chain (c :: caches) (length (c :: caches))) as Hl.
  specialize (Hl ltac:(lia) ltac:(lia) 256 1 ltac:(lia) ltac:(lia)).
  change (chain_of (take 1 (c :: caches))) with ([] ++ [mkLCache c None None]) in Hl.
  change (1 - 1) with 0 in Hl. change (0 + 1)%Z with (Z.of_nat 1).
  rewrite Hl. done.
Qed.

Section Undefined.

Context {B : Type} `{!Cacher B}.

(* The copy without validator builds an orchestrator for a write pattern
   that is none of the three defined ones; on it a store with a key and a
   value within the bound reports success although no level is called and
   nothing is stored. *)
Theorem part_001_undefined_write_pattern rp wp mvs caches fuel k val ttl (w : World B) :
  1 <= length caches <= 5 ->
  (endW <= wp)%Z ->
  too_long val mvs = false ->
  exists ca,
    part_001.NewMultiLevelCache rp wp mvs caches = Val (Some ca, None) /\
    Put fuel ca (Some k) val ttl w = (Val (CacheStatusSuccess, None), w).
Proof.
  intros Hlen Hwp Hval. eexists. split; [by apply part_001_accepts |].
  unfold Put, chained. simpl. rewrite Hval.
  unfold endW, WriteThrough, WriteAround, WriteBack in *.
  destruct (Z.eqb_spec wp 0); [lia |].
  destruct (Z.eqb_spec wp 1); [lia |].
  destruct (Z.eqb_spec wp 2); [lia | done].
Qed.

(* The copy without validator builds an orchestrator for a read pattern
   that is none of the two defined ones; on it a fetch with a key asks no
   level and answers as for a miss, whatever the levels hold. *)
Theorem part_001_undefined_read_pattern rp wp mvs caches fuel k (w : World B) :
  1 <= length caches <= 5 ->
  (endR <= rp)%Z ->
  exists ca,
    part_001.NewMultiLevelCache rp wp mvs caches = Val (Some ca, None) /\
    Get fuel ca (Some k) w = (Val (None, clock w, None), w).
Proof.
  intros Hlen Hrp. eexists. split; [by apply part_001_accepts |].
  unfold Get, chained. simpl.
  unfold endR, ReadThrough, CacheAside in *.
  destruct (Z.eqb_spec rp 0); [lia |].
  destruct (Z.eqb_spec rp 1); [lia | done].
Qed.

End Undefined.

(** ** Package errs *)

(* An error made by New from a non-empty message and extended by Build
   with a non-empty message reads as the first message, a semicolon and
   the second one. New of the empty message is nil, Build with the empty
   message returns its argument, nil included, and Build of nil with a
   non-empty message panics. *)
Theorem errs_Build_after_New (a b : errs.ErrorMessage) :
  errs.New "" = None /\
  (forall err, errs.Build err "" = Val err) /\
  (b <> "" -> errs.Build None b = Panic) /\
  (a <> "" -> b <> "" ->
   errs.Build (errs.New a) b = Val (Some (a ++ "; " ++ b)%string)).
Proof.
  unfold errs.New, errs.Build. repeat split.
  - intros Hb. by rewrite decide_False.
  - intros Ha Hb. by rewrite !decide_False.
Qed.

(** ** The mock of the test suite *)

(* What the mock keeps: a buffer put under a key is what Get returns for
   that key, other keys are not affected, a deleted key is missing again,
   and after Flush no key is present. *)
Theorem mock_round_trips now (c : mock.mockCacher) (k k' : CacheKey) val expires :
  (mock.Get now (mock.Put now c k val expires).2 k).1 = (val, now, None) /\
  (AsString k <> AsString k' ->
   (mock.Get now (mock.Put now c k val expires).2 k').1 = (mock.Get now c k').1) /\
  (mock.Get now (mock.Del now c k).2 k).1 = (None, now, Some "Could not get item") /\
  (mock.IsPresent now (mock.Put now c k val expires).2 k).1 = (CacheStatusSuccess, None) /\
  (mock.IsPresent now (mock.Flush now c).2 k).1 = (CacheStatusFailure, None).
Proof.
  unfold mock.Get, mock.Put, mock.Del, mock.IsPresent, mock.Flush.
  unfold mock.mockCacher in *. cbn [fst snd]. repeat split.
  - by rewrite lookup_insert_eq.
  - intros Hne. rewrite lookup_insert_ne by done.
    by destruct (c !! AsString k').
  - by rewrite lookup_delete_eq.
  - by rewrite lookup_insert_eq.
Qed.

Section Mocks.

Lemma mock_call_Put h c k val ttl (w : World Backend) :
  store w !! h = Some (Mock c) ->
  call_Put h k val ttl w
  = (Val (CacheStatusSuccess, None),
     mkWorld (<[h := Mock (<[AsString k := val]> c)]> (store w))
       (log w ++ [EvPut h k val ttl (CacheStatusSuccess, None)])
       (tasks w) (clock w)).
Proof. intros Hh. unfold call_Put, invoke. by rewrite Hh. Qed.

Lemma mock_call_Del h c k (w : World Backend) :
  store w !! h = Some (Mock c) ->
  call_Del h k w
  = (Val (CacheStatusSuccess, None),
     mkWorld (<[h := Mock (delete (AsString k) c)]> (store w))
       (log w ++ [EvDel h k (CacheStatusSuccess, None)])
       (tasks w) (clock w)).
Proof. intros Hh. unfold call_Del, invoke. by rewrite Hh. Qed.

Lemma mock_call_Get h c k (w : World Backend) :
  store w !! h = Some (Mock c) ->
  call_Get h k w
  = (Val (mock.Get (clock w) c k).1,
     mkWorld (store w) (log w ++ [EvGet h k (mock.Get (clock w) c k).1])
       (tasks w) (clock w)).
Proof.
  intros Hh. unfold call_Get, invoke. rewrite Hh. simpl.
  unfold mock.Get. destruct (c !! AsString k); simpl;
    by rewrite (list_insert_id _ _ _ Hh).
Qed.

Lemma mock_call_IsPresent h c k (w : World Backend) :
  store w !! h = Some (Mock c) ->
  call_IsPresent h k w
  = (Val (mock.IsPresent (clock w) c k).1,
     mkWorld (store w) (log w ++ [EvIsPresent h k (mock.IsPresent (clock w) c k).1])
       (tasks w) (clock w)).
Proof.
  intros Hh. unfold call_IsPresent, invoke. rewrite Hh. simpl.
  unfold mock.IsPresent. destruct (c !! AsString k); simpl;
    by rewrite (list_insert_id _ _ _ Hh).
Qed.

Lemma level_holds_Get k v h (w : World Backend) :
  level_holds k v w h ->
  (call_Get h k w).1 = Val (v, clock w, None).
Proof.
  intros (c & Hh & Hc). rewrite (mock_call_Get _ _ _ _ Hh). simpl.
  unfold mock.Get. by rewrite Hc.
Qed.

(* writing the value to mocks, one after the other *)
Lemma put_mocks k val ttl hs :
  forall w : World Backend,
    Forall (is_mock w) hs ->
    exists rs w',
      in_turn (fun h => call_Put h k val ttl) hs w = (Val rs, w') /\
      Forall ok rs /\
      clock w' = clock w /\
      (forall h, is_mock w h -> is_mock w' h) /\
      (forall h, h ∈ hs -> level_holds k val w' h) /\
      (forall h, level_holds k val w h -> level_holds k val w' h) /\
      (forall h, h ∉ hs -> store w' !! h = store w !! h).
Proof.
  induction hs as [| h hs IH]; intros w Hm.
  - exists [], w. repeat split; try done. intros h Hh. by apply elem_of_nil in Hh.
  - apply Forall_cons in Hm as [[c Hc] Hm].
    pose proof (mock_call_Put h c k val ttl w Hc) as Hput.
    set (w1 := mkWorld (<[h := Mock (<[AsString k := val]> c)]> (store w))
                 (log w ++ [EvPut h k val ttl (CacheStatusSuccess, None)])
                 (tasks w) (clock w)) in *.
    assert (Hlt : h < length (store w)) by (by eapply lookup_lt_Some).
    assert (Hmock1 : forall h', is_mock w h' -> is_mock w1 h').
    { intros h' [c' Hc']. unfold is_mock, w1. simpl.
      destruct (decide (h = h')) as [<- | Hne].
      - eexists. by apply list_lookup_insert_eq.
      - exists c'. by rewrite list_lookup_insert_ne. }
    assert (Hhold1 : level_holds k val w1 h).
    { eexists. split; [by apply list_lookup_insert_eq |].
      by apply lookup_insert_eq. }
    assert (Hkeep1 : forall h', level_holds k val w h' -> level_holds k val w1 h').
    { intros h' (c' & Hc' & Hk).
      destruct (decide (h = h')) as [<- | Hne]; [done |].
      exists c'. split; [| done]. unfold w1. simpl.
      by rewrite list_lookup_insert_ne. }
    destruct (IH w1) as (rs & w' & Hrun & Hok & Hclock & Hmock & Hin & Hkeep & Hout).
    { eapply Forall_impl; [exact Hm | exact Hmock1]. }
    exists ((CacheStatusSuccess, None) :: rs), w'.
    repeat split.
    + simpl. unfold bind. by rewrite Hput, Hrun.
    + by apply Forall_cons.
    + done.
    + intros h' Hh'. by apply Hmock, Hmock1.
    + intros h' Hh'. apply elem_of_cons in Hh' as [-> | Hh'].
      * by apply Hkeep.
      * by apply Hin.
    + intros h' Hh'. by apply Hkeep, Hkeep1.
    + intros h' Hh'. apply not_elem_of_cons in Hh' as [Hne Hh'].
      rewrite Hout by done. unfold w1. simpl.
      by rewrite list_lookup_insert_ne.
Qed.

(* deleting the key from mocks, one after the other *)
Lemma del_mocks k hs :
  forall w : World Backend,
    Forall (is_mock w) hs ->
    exists rs w',
      in_turn (fun h => call_Del h k) hs w = (Val rs, w') /\
      Forall ok rs /\
      clock w' = clock w /\
      (forall h, is_mock w h -> is_mock w' h) /\
      (forall h, h ∈ hs -> level_lacks k w' h) /\
      (forall h, level_lacks k w h -> level_lacks k w' h).
Proof.
  induction hs as [| h hs IH]; intros w Hm.
  - exists [], w. repeat split; try done. intros h Hh. by apply elem_of_nil in Hh.
  - apply Forall_cons in Hm as [[c Hc] Hm].
    pose proof (mock_call_Del h c k w Hc) as Hdel.
    set (w1 := mkWorld (<[h := Mock (delete (AsString k) c)]> (store w))
                 (log w ++ [EvDel h k (CacheStatusSuccess, None)])
                 (tasks w) (clock w)) in *.
    assert (Hlt : h < length (store w)) by (by eapply lookup_lt_Some).
    assert (Hmock1 : forall h', is_mock w h' -> is_mock w1 h').
    { intros h' [c' Hc']. unfold is_mock, w1. simpl.
      destruct (decide (h = h')) as [<- | Hne].
      - eexists. by apply list_lookup_insert_eq.
      - exists c'. by rewrite list_lookup_insert_ne. }
    assert (Hlack1 : level_lacks k w1 h).
    { eexists. split; [by apply list_lookup_insert_eq |].
      by apply lookup_delete_eq. }
    assert (Hkeep1 : forall h', level_lacks k w h' -> level_lacks k w1 h').
    { intros h' (c' & Hc' & Hk).
      destruct (decide (h = h')) as [<- | Hne]; [done |].
      exists c'. split; [| done]. unfold w1. simpl.
      by rewrite list_lookup_insert_ne. }
    destruct (IH w1) as (rs & w' & Hrun & Hok & Hclock & Hmock & Hin & Hkeep).
    { eapply Forall_impl; [exact Hm | exact Hmock1]. }
    exists ((CacheStatusSuccess, None) :: rs), w'.
    repeat split.
    + simpl. unfold bind. by rewrite Hdel, Hrun.
    + by apply Forall_cons.
    + done.
    + intros h' Hh'. by apply Hmock, Hmock1.
    + intros h' Hh'. apply elem_of_cons in Hh' as [-> | Hh'].
      * by apply Hkeep.
      * by apply Hin.
    + intros h' Hh'. by apply Hkeep, Hkeep1.
Qed.

(* asking mocks that have no buffer for the key *)
Lemma get_mocks_empty_handed k hs :
  forall w : World Backend,
    Forall (fun h => level_lacks k w h \/ level_holds k None w h) hs ->
    exists gs w',
      in_turn (fun h => call_Get h k) hs w = (Val gs, w') /\
      Forall miss gs /\
      store w' = store w /\ clock w' = clock w /\ tasks w' = tasks w.
Proof.
  induction hs as [| h hs IH]; intros w Hm.
  - by exists [], w.
  - apply Forall_cons in Hm as [Hh Hm].
    assert (exists c, store w !! h = Some (Mock c) /\
                      miss (mock.Get (clock w) c k).1) as (c & Hc & Hmiss).
    { destruct Hh as [(c & Hc & Hk) | (c & Hc & Hk)]; exists c;
        (split; [done |]); unfold mock.Get; by rewrite Hk. }
    pose proof (mock_call_Get h c k w Hc) as Hget.
    set (w1 := mkWorld (store w) (log w ++ [EvGet h k (mock.Get (clock w) c k).1])
                 (tasks w) (clock w)) in *.
    destruct (IH w1) as (gs & w' & Hrun & Hgs & Hstore & Hclock & Htasks);
      [done |].
    exists ((mock.Get (clock w) c k).1 :: gs), w'.
    repeat split; try done.
    + simpl. unfold bind. by rewrite Hget, Hrun.
    + by apply Forall_cons.
Qed.

End Mocks.

Section MockChains.

Lemma elem_of_rev_2 {A} (x : A) (l : list A) : x ∈ l -> x ∈ rev l.
Proof. rewrite !list_elem_of_In. apply in_rev. Qed.

(* a fetch finds at level 1 what the mock of level 1 holds *)
Lemma fetch_from_level_1 fuel ca k b h1 (w : World Backend) :
  wf_chain ca ->
  readPattern ca = ReadThrough \/ readPattern ca = CacheAside ->
  length (levels ca) <= fuel ->
  levels ca !! 0 = Some h1 ->
  level_holds k (Some b) w h1 ->
  (Get fuel ca (Some k) w).1 = Val (Some b, clock w, None).
Proof.
  intros Hwf Hrp Hfuel H1 (c & Hc & Hk).
  pose proof (mock_call_Get h1 c k w Hc) as Hget.
  unfold mock.Get in Hget. rewrite Hk in Hget. simpl in Hget.
  destruct Hrp as [Hrp | Hrp].
  - by rewrite (Get_read_through_found fuel ca k w w _ _ 0 h1 [] b (clock w) None []
                  Hwf Hrp Hfuel H1 eq_refl (Forall_nil_2 _) Hget eq_refl
                  (Forall_nil_2 _)).
  - by rewrite (Get_cache_aside_found fuel ca k w w _ 0 h1 [] b (clock w) None
                  Hwf Hrp Hfuel H1 eq_refl (Forall_nil_2 _) Hget).
Qed.

(* Over mocks, a store under Write-Through succeeds, and afterwards a fetch
   made directly on any level of the chain returns the stored buffer; the
   backends outside the chain are as before. *)
Theorem mock_write_through_reaches_every_level rp mvs caches ca fuel k val ttl
    (w : World Backend) :
  NewMultiLevelCache rp WriteThrough mvs caches = Val (Some ca, None) ->
  length caches <= 5 ->
  length caches <= fuel ->
  too_long val mvs = false ->
  Forall (is_mock w) caches ->
  exists w',
    Put fuel ca (Some k) val ttl w = (Val (CacheStatusSuccess, None), w') /\
    Forall (fun h => (call_Get h k w').1 = Val (val, clock w, None)) caches /\
    (forall h, h ∉ caches -> store w' !! h = store w !! h).
Proof.
  intros Hnew Hlen Hfuel Hval Hm.
  destruct (built_small _ _ _ _ _ Hnew Hlen) as (Hwf & Hl & _ & Hwp & Hmvs).
  destruct (put_mocks k val ttl caches w Hm)
    as (rs & w' & Hrun & Hok & Hclock & _ & Hin & _ & Hout).
  exists w'. repeat split; [| | done].
  - apply (Put_write_through_all _ _ _ _ _ _ _ rs); try done; congruence.
  - apply Forall_forall. intros h Hh. rewrite <- Hclock.
    by apply level_holds_Get, Hin.
Qed.

(* Over mocks, under Write-Through and under Write-Back, a buffer stored
   through the orchestrator is what a fetch through the orchestrator
   returns next, under either read pattern. *)
Theorem mock_store_then_fetch rp wp mvs caches ca fuel k b ttl (w : World Backend) :
  NewMultiLevelCache rp wp mvs caches = Val (Some ca, None) ->
  length caches <= 5 ->
  length caches <= fuel ->
  rp = ReadThrough \/ rp = CacheAside ->
  wp = WriteThrough \/ wp = WriteBack ->
  too_long (Some b) mvs = false ->
  Forall (is_mock w) caches ->
  (Put fuel ca (Some k) (Some b) ttl w).1 = Val (CacheStatusSuccess, None) /\
  (Get fuel ca (Some k) (Put fuel ca (Some k) (Some b) ttl w).2).1
  = Val (Some b, clock w, None).
Proof.
  intros Hnew Hlen Hfuel Hrp Hwp Hval Hm.
  destruct (built_small _ _ _ _ _ Hnew Hlen) as (Hwf & Hl & Hrp' & Hwp' & Hmvs).
  destruct (wf_head _ Hwf) as (h1 & H1 & _).
  assert (Hin1 : h1 ∈ caches).
  { rewrite <- Hl. by eapply list_elem_of_lookup_2. }
  assert (Hrp'' : readPattern ca = ReadThrough \/ readPattern ca = CacheAside)
    by (by rewrite Hrp').
  assert (Hfuel' : length (levels ca) <= fuel) by (by rewrite Hl).
  destruct Hwp as [-> | ->].
  - destruct (put_mocks k (Some b) ttl caches w Hm)
      as (rs & w' & Hrun & Hok & Hclock & _ & Hin & _).
    rewrite (Put_write_through_all fuel ca k (Some b) ttl w w' rs)
      by (try done; congruence).
    split; [done |]. simpl. rewrite <- Hclock.
    apply (fetch_from_level_1 fuel ca k b h1); try done. by apply Hin.
  - rewrite Forall_forall in Hm. destruct (Hm _ Hin1) as [c Hc].
    assert (exists w',
               Put fuel ca (Some k) (Some b) ttl w
               = (Val (CacheStatusSuccess, None), w') /\
               clock w' = clock w /\ level_holds k (Some b) w' h1)
      as (w' & -> & Hclock & Hhold).
    { eexists. split; [| split].
      - rewrite (Put_write_back_unfold fuel ca k (Some b) ttl h1)
          by (try done; congruence).
        unfold bind at 1. rewrite (mock_call_Put _ _ _ _ _ _ Hc).
        unfold bind. rewrite check_ok by done. reflexivity.
      - done.
      - eexists. split.
        + simpl. apply list_lookup_insert_eq. by eapply lookup_lt_Some.
        + by apply lookup_insert_eq. }
    split; [done |]. simpl. rewrite <- Hclock.
    by apply (fetch_from_level_1 fuel ca k b h1).
Qed.

(* Over mocks, a store under Write-Around does not touch level 1: when
   level 1 holds an older buffer for the key and is not the backend of
   level N, the store succeeds and the next fetch through the orchestrator
   still returns the older buffer. *)
Theorem mock_write_around_stale_fetch rp mvs caches ca fuel k b old ttl h1 hN
    (w : World Backend) :
  NewMultiLevelCache rp WriteAround mvs caches = Val (Some ca, None) ->
  length caches <= 5 ->
  length caches <= fuel ->
  rp = ReadThrough \/ rp = CacheAside ->
  too_long (Some b) mvs = false ->
  caches !! 0 = Some h1 ->
  last caches = Some hN ->
  h1 <> hN ->
  level_holds k (Some old) w h1 ->
  is_mock w hN ->
  (Put fuel ca (Some k) (Some b) ttl w).1 = Val (CacheStatusSuccess, None) /\
  (Get fuel ca (Some k) (Put fuel ca (Some k) (Some b) ttl w).2).1
  = Val (Some old, clock w, None).
Proof.
  intros Hnew Hlen Hfuel Hrp Hval H1 HN Hne (c1 & Hc1 & Hk1) [cN HcN].
  destruct (built_small _ _ _ _ _ Hnew Hlen) as (Hwf & Hl & Hrp' & Hwp' & Hmvs).
  assert (exists w',
             Put fuel ca (Some k) (Some b) ttl w
             = (Val (CacheStatusSuccess, None), w') /\
             clock w' = clock w /\ level_holds k (Some old) w' h1)
    as (w' & -> & Hclock & Hhold).
  { eexists. split; [| split].
    - rewrite (Put_write_around_unfold fuel ca k (Some b) ttl hN)
        by (try done; congruence).
      unfold bind at 1. rewrite (mock_call_Put _ _ _ _ _ _ HcN).
      unfold bind. rewrite check_ok by done. reflexivity.
    - done.
    - exists c1. split; [| done]. simpl. by rewrite list_lookup_insert_ne. }
  split; [done |]. simpl. rewrite <- Hclock.
  apply (fetch_from_level_1 fuel ca k old h1); try done; congruence.
Qed.

(* Over mocks, a delete succeeds, and the next fetch through the
   orchestrator, under either read pattern, is a miss. *)
Theorem mock_delete_then_miss rp wp mvs caches ca fuel k (w : World Backend) :
  NewMultiLevelCache rp wp mvs caches = Val (Some ca, None) ->
  length caches <= 5 ->
  length caches <= fuel ->
  rp = ReadThrough \/ rp = CacheAside ->
  Forall (is_mock w) caches ->
  (Del fuel ca (Some k) w).1 = Val (CacheStatusSuccess, None) /\
  (Get fuel ca (Some k) (Del fuel ca (Some k) w).2).1 = Val (None, clock w, None).
Proof.
  intros Hnew Hlen Hfuel Hrp Hm.
  destruct (built_small _ _ _ _ _ Hnew Hlen) as (Hwf & Hl & Hrp' & _).
  destruct (del_mocks k (rev caches) w) as (rs & w' & Hrun & Hok & Hclock & _ & Hin & _).
  { by apply Forall_rev. }
  rewrite (Del_all fuel ca k w w' rs) by (try done; congruence).
  split; [done |]. cbn [fst snd].
  destruct (get_mocks_empty_handed k caches w')
    as (gs & w'' & Hscan & Hmiss & _ & Hclock' & _).
  { apply Forall_forall. intros h Hh. left. apply Hin. by apply elem_of_rev_2. }
  rewrite (Get_all_miss fuel ca k w' w'' gs) by (try done; congruence).
  simpl. by rewrite Hclock', Hclock.
Qed.

(* Over mocks, a nil buffer stored under Write-Through is present for the
   existence check and missing for the fetch: IsPresent succeeds and Get
   answers as for a key that was never stored. *)
Theorem mock_nil_buffer_present_but_missed rp mvs caches ca fuel k ttl
    (w : World Backend) :
  NewMultiLevelCache rp WriteThrough mvs caches = Val (Some ca, None) ->
  length caches <= 5 ->
  length caches <= fuel ->
  rp = ReadThrough \/ rp = CacheAside ->
  Forall (is_mock w) caches ->
  exists w',
    Put fuel ca (Some k) None ttl w = (Val (CacheStatusSuccess, None), w') /\
    (IsPresent ca (Some k) w').1 = Val (CacheStatusSuccess, None) /\
    (Get fuel ca (Some k) w').1 = Val (None, clock w, None).
Proof.
  intros Hnew Hlen Hfuel Hrp Hm.
  destruct (built_small _ _ _ _ _ Hnew Hlen) as (Hwf & Hl & Hrp' & Hwp' & Hmvs).
  destruct (wf_head _ Hwf) as (h1 & H1 & _).
  destruct (put_mocks k None ttl caches w Hm)
    as (rs & w' & Hrun & Hok & Hclock & _ & Hin & _).
  exists w'. split; [| split].
  - apply (Put_write_through_all _ _ _ _ _ _ _ rs); try done; congruence.
  - destruct (Hin h1) as (c & Hc & Hk).
    { rewrite <- Hl. by eapply list_elem_of_lookup_2. }
    rewrite (IsPresent_unfold ca k h1) by done.
    unfold bind at 1. rewrite (mock_call_IsPresent _ _ _ _ Hc).
    unfold mock.IsPresent. rewrite Hk. cbn [fst snd].
    unfold bind. by rewrite check_ok.
  - destruct (get_mocks_empty_handed k caches w')
      as (gs & w'' & Hscan & Hmiss & _ & Hclock' & _).
    { apply Forall_forall. intros h Hh. right. by apply Hin. }
    rewrite (Get_all_miss fuel ca k w' w'' gs) by (try done; congruence).
    simpl. by rewrite Hclock', Hclock.
Qed.

End MockChains.

(** ** Instances of the further properties *)

Local Open Scope Z_scope.

(* three backends and an undefined read pattern *)
Lemma NewMultiLevelCache_validates_witness :
  NewMultiLevelCache 2 WriteThrough 100 three_levels
  = Val (None, Some "Invalid read pattern").
Proof.
  destruct (NewMultiLevelCache_validates 2 WriteThrough 100 three_levels)
    as (_ & _ & Hread & _); [count |].
  apply Hread; [count | unfold endR; lia].
Defined.

Lemma NewMultiLevelCache_chain_witness :
  levels through_through = three_levels /\
  l1Cache through_through = Some 0%nat /\
  lnCache through_through = Some 2%nat.
Proof.
  destruct (NewMultiLevelCache_chain ReadThrough WriteThrough 100 three_levels
              through_through) as (Hl & _ & _ & Hhead & Htail & _); [run |].
  exact (conj Hl (conj Hhead Htail)).
Defined.

Lemma part_001_NewMultiLevelCache_witness :
  part_001.NewMultiLevelCache CacheAside WriteBack 100 three_levels
  = NewMultiLevelCache CacheAside WriteBack 100 three_levels.
Proof.
  apply part_001_NewMultiLevelCache; [unfold endR, CacheAside | unfold endW, WriteBack]; lia.
Defined.

Lemma part_001_undefined_write_pattern_witness :
  exists ca,
    part_001.NewMultiLevelCache ReadThrough 9 100 three_levels = Val (Some ca, None) /\
    Put 3 ca (Some kafka) (Some "franzkafka") 5000 (world_of [Mock ∅; Mock ∅; Mock ∅] 7)
    = (Val (CacheStatusSuccess, None), world_of [Mock ∅; Mock ∅; Mock ∅] 7).
Proof.
  apply part_001_undefined_write_pattern; [count | unfold endW; lia | reflexivity].
Defined.

Lemma part_001_undefined_read_pattern_witness :
  exists ca,
    part_001.NewMultiLevelCache 7 WriteThrough 100 three_levels = Val (Some ca, None) /\
    Get 3 ca (Some kafka)
      (world_of [holding "metamorphosis" "franzkafka"; Mock ∅; Mock ∅] 7)
    = (Val (None, 7, None),
       world_of [holding "metamorphosis" "franzkafka"; Mock ∅; Mock ∅] 7).
Proof.
  apply (part_001_undefined_read_pattern 7 WriteThrough 100 three_levels 3 kafka
           (world_of [holding "metamorphosis" "franzkafka"; Mock ∅; Mock ∅] 7));
    [count | unfold endR; lia].
Defined.

Lemma negative_bound_rejects_every_buffer_witness :
  exists ca,
    NewMultiLevelCache ReadThrough WriteThrough (-1) three_levels = Val (Some ca, None) /\
    Put 3 ca (Some kafka) (Some "") 5000 (world_of [Mock ∅; Mock ∅; Mock ∅] 7)
    = (Val (CacheStatusFailure, Some "Max val len exceeded"),
       world_of [Mock ∅; Mock ∅; Mock ∅] 7).
Proof.
  apply negative_bound_rejects_every_buffer;
    [count | unfold endR, ReadThrough; lia | unfold endW, WriteThrough; lia | lia].
Defined.

Lemma errs_Build_after_New_witness :
  errs.Build (errs.New "disk full") PutError = Val (Some "disk full; Put error").
Proof.
  destruct (errs_Build_after_New "disk full" PutError) as (_ & _ & _ & Hb).
  apply Hb; discriminate.
Defined.

Lemma mock_round_trips_witness :
  (mock.Get 7 (mock.Put 7 ∅ kafka (Some "franzkafka") 5000).2 sagan).1
  = (mock.Get 7 ∅ sagan).1.
Proof.
  destruct (mock_round_trips 7 ∅ kafka sagan (Some "franzkafka") 5000)
    as (_ & Hother & _).
  apply Hother. discriminate.
Defined.

(* level 2 is out of service: the store stops there *)
Lemma Put_write_through_run_witness :
  (Put 3 through_through (Some kafka) (Some "franzkafka") 5000
     (world_of [Mock ∅; OutOfService "disk full"; Mock ∅] 7)).1
  = Val (CacheStatusFailure, Some "disk full; Put error").
Proof.
  pose (w := world_of [Mock ∅; OutOfService "disk full"; Mock ∅] 7).
  pose (w1 := (call_Put 0%nat kafka (Some "franzkafka") 5000 w).2).
  pose (w2 := (call_Put 1%nat kafka (Some "franzkafka") 5000 w1).2).
  destruct (Put_write_through_run ReadThrough 100 three_levels through_through
              3 kafka (Some "franzkafka") 5000 w) as [_ Herr];
    [run | count | reflexivity | count |].
  destruct (Herr 1%nat 1%nat [(CacheStatusSuccess, None)] w1
              CacheStatusFailure "disk full" w2) as [HP _];
    [reflexivity | run | repeat constructor | run |].
  fold w. rewrite HP. reflexivity.
Defined.

(* level 3 is out of service *)
Lemma Put_write_around_run_witness :
  (Put 3 through_around (Some sagan) (Some "carlsagan") 5000
     (world_of [Mock ∅; Mock ∅; OutOfService "disk full"] 7)).1
  = Val (CacheStatusFailure, Some "disk full; Put error").
Proof.
  pose (w := world_of [Mock ∅; Mock ∅; OutOfService "disk full"] 7).
  pose (w' := (call_Put 2%nat sagan (Some "carlsagan") 5000 w).2).
  destruct (Put_write_around_run ReadThrough 100 three_levels through_around
              3 sagan (Some "carlsagan") 5000 2%nat
              (CacheStatusFailure, Some "disk full") w w')
    as (_ & Herr & _); [run | count | reflexivity | reflexivity | run |].
  fold w. rewrite (Herr CacheStatusFailure "disk full" eq_refl). reflexivity.
Defined.

(* level 1 accepts: success, and the propagation is pending *)
Lemma Put_write_back_run_witness :
  Put 3 through_back (Some kafka) (Some "franzkafka") 5000
    (world_of [Mock ∅; Mock ∅; Mock ∅] 7)
  = (Val (CacheStatusSuccess, None),
     mkWorld [holding "metamorphosis" "franzkafka"; Mock ∅; Mock ∅]
       [EvPut 0%nat kafka (Some "franzkafka") 5000 (CacheStatusSuccess, None)]
       [GoWriteBack 200 (Some 0%nat) kafka (Some "franzkafka") 5000] 7).
Proof.
  pose (w := world_of [Mock ∅; Mock ∅; Mock ∅] 7).
  pose (w' := mkWorld [holding "metamorphosis" "franzkafka"; Mock ∅; Mock ∅]
                [EvPut 0%nat kafka (Some "franzkafka") 5000 (CacheStatusSuccess, None)]
                [] 7).
  destruct (Put_write_back_run ReadThrough 100 three_levels through_back
              3 kafka (Some "franzkafka") 5000 0%nat
              (CacheStatusSuccess, None) w w')
    as (Hok & _); [run | count | reflexivity | reflexivity | run |].
  exact (Hok eq_refl).
Defined.

(* three mocks that hold the key *)
Lemma Del_run_witness :
  Del 3 through_through (Some kafka)
    (world_of [holding "metamorphosis" "franzkafka";
               holding "metamorphosis" "franzkafka";
               holding "metamorphosis" "franzkafka"] 7)
  = (Val (CacheStatusSuccess, None),
     mkWorld [Mock ∅; Mock ∅; Mock ∅]
       [EvDel 2%nat kafka (CacheStatusSuccess, None);
        EvDel 1%nat kafka (CacheStatusSuccess, None);
        EvDel 0%nat kafka (CacheStatusSuccess, None)]
       [] 7).
Proof.
  pose (w := world_of [holding "metamorphosis" "franzkafka";
                       holding "metamorphosis" "franzkafka";
                       holding "metamorphosis" "franzkafka"] 7).
  destruct (Del_run ReadThrough WriteThrough 100 three_levels through_through
              3 kafka w) as [Hall _]; [run | count | count |].
  refine (proj1 (Hall [(CacheStatusSuccess, None); (CacheStatusSuccess, None);
                       (CacheStatusSuccess, None)]
                   (mkWorld [Mock ∅; Mock ∅; Mock ∅]
                      [EvDel 2%nat kafka (CacheStatusSuccess, None);
                       EvDel 1%nat kafka (CacheStatusSuccess, None);
                       EvDel 0%nat kafka (CacheStatusSuccess, None)]
                      [] 7) _ _)).
  - run.
  - repeat constructor.
Defined.

(* level 1 holds the key *)
Lemma IsPresent_run_witness :
  (IsPresent through_through (Some kafka)
     (world_of [holding "metamorphosis" "franzkafka"; Mock ∅; Mock ∅] 7)).1
  = Val (CacheStatusSuccess, None).
Proof.
  pose (w := world_of [holding "metamorphosis" "franzkafka"; Mock ∅; Mock ∅] 7).
  pose (w' := (call_IsPresent 0%nat kafka w).2).
  destruct (IsPresent_run ReadThrough WriteThrough 100 three_levels
              through_through kafka 0%nat (CacheStatusSuccess, None) w w')
    as (Hok & _); [run | count | reflexivity | run |].
  fold w. rewrite (Hok eq_refl). reflexivity.
Defined.

(* the value is at level 2 and level 1 is out of service *)
Lemma Get_read_through_backfill_stops_witness :
  (Get 2 (built (NewMultiLevelCache ReadThrough WriteThrough 100 [0; 1]%nat))
     (Some sagan)
     (world_of [OutOfService "disk full"; holding "cosmos" "carlsagan"] 7)).1
  = Val (None, 7, Some "disk full").
Proof.
  pose (ca := built (NewMultiLevelCache ReadThrough WriteThrough 100 [0; 1]%nat)).
  pose (w := world_of [OutOfService "disk full"; holding "cosmos" "carlsagan"] 7).
  pose (w0 := (call_Get 0%nat sagan w).2).
  pose (w1 := (call_Get 1%nat sagan w0).2).
  pose (w3 := (call_Put 0%nat sagan (Some "carlsagan") 7 w1).2).
  rewrite (Get_read_through_backfill_stops WriteThrough 100 [0; 1]%nat ca 2 sagan
             w w0 w1 w1 w3 1 1%nat [(None, 7, Some "disk full")] "carlsagan" 7 None
             0 0%nat [] CacheStatusFailure (Some "disk full")).
  - reflexivity.
  - run.
  - count.
  - count.
  - reflexivity.
  - run.
  - repeat constructor.
  - run.
  - reflexivity.
  - run.
  - constructor.
  - run.
  - reflexivity.
Defined.

(* the value is at level 3 *)
Lemma Get_cache_aside_hit_witness :
  (Get 3 (built (NewMultiLevelCache CacheAside WriteAround 100 three_levels))
     (Some sagan) (world_of [Mock ∅; Mock ∅; holding "cosmos" "carlsagan"] 7)).1
  = Val (Some "carlsagan", 7, None).
Proof.
  pose (ca := built (NewMultiLevelCache CacheAside WriteAround 100 three_levels)).
  pose (w := world_of [Mock ∅; Mock ∅; holding "cosmos" "carlsagan"] 7).
  pose (w0 := (in_turn (fun h => call_Get h sagan) [0; 1]%nat w).2).
  pose (w1 := (call_Get 2%nat sagan w0).2).
  destruct (Get_cache_aside_hit WriteAround 100 three_levels ca 3 sagan w w0 w1
              2 2%nat
              [(None, 7, Some "Could not get item");
               (None, 7, Some "Could not get item")]
              "carlsagan" 7 None) as [HG _];
    [run | count | count | reflexivity | run | repeat constructor | run |].
  fold ca w. rewrite HG. reflexivity.
Defined.


(* level 2 refuses the propagation: level 3 is not written, nothing panics *)
Lemma write_back_task_run_witness :
  run_task 3 through_back
    (GoWriteBack 200 (Some 0%nat) kafka (Some "franzkafka") 5000)
    (world_of [holding "metamorphosis" "franzkafka"; Refusing; Mock ∅] 7)
  = (Val tt,
     mkWorld [holding "metamorphosis" "franzkafka"; Refusing; Mock ∅]
       [EvPut 1%nat kafka (Some "franzkafka") 5000 (CacheStatusFailure, None)]
       [] 7).
Proof.
  pose (w := world_of [holding "metamorphosis" "franzkafka"; Refusing; Mock ∅] 7).
  destruct (write_back_task_run ReadThrough WriteBack 100 three_levels through_back
              3 200 kafka (Some "franzkafka") 5000 w) as [_ Hstop];
    [run | count | count |].
  apply (Hstop 0%nat 1%nat [] w (CacheStatusFailure, None)).
  - reflexivity.
  - reflexivity.
  - constructor.
  - run.
  - reflexivity.
Defined.

(* the value was found at level 3: levels 2 and 1 are written *)
Lemma cache_aside_task_run_witness :
  (run_task 3 (built (NewMultiLevelCache CacheAside WriteAround 100 three_levels))
     (GoBackfill (Some 2%nat) sagan (Some "carlsagan") 7)
     (world_of [Mock ∅; Mock ∅; holding "cosmos" "carlsagan"] 7)).1
  = Val tt.
Proof.
  pose (ca := built (NewMultiLevelCache CacheAside WriteAround 100 three_levels)).
  pose (w := world_of [Mock ∅; Mock ∅; holding "cosmos" "carlsagan"] 7).
  pose (w' := (in_turn (fun h => call_Put h sagan (Some "carlsagan") 7)
                 [1; 0]%nat w).2).
  destruct (cache_aside_task_run WriteAround 100 three_levels ca 3 2 2%nat sagan
              (Some "carlsagan") 7 w w'
              [(CacheStatusSuccess, None); (CacheStatusSuccess, None)])
    as [HR _]; [run | count | count | reflexivity | run |].
  fold ca w. rewrite HR. reflexivity.
Defined.


Lemma cache_aside_catches_up_witness :
  exists wa,
    Get 3 (built (NewMultiLevelCache CacheAside WriteAround 100 three_levels))
      (Some sagan) (world_of [Mock ∅; Mock ∅; holding "cosmos" "carlsagan"] 7)
    = (Val (Some "carlsagan", 7, None), wa) /\
    tasks wa = [GoBackfill (Some 2%nat) sagan (Some "carlsagan") 7] /\
    run_task 3 (built (NewMultiLevelCache CacheAside WriteAround 100 three_levels))
      (GoBackfill (Some 2%nat) sagan (Some "carlsagan") 7) wa
    = (Val tt,
       with_tasks (tasks wa)
         (Get 3 through_around (Some sagan)
            (world_of [Mock ∅; Mock ∅; holding "cosmos" "carlsagan"] 7)).2).
Proof.
  pose (ca := built (NewMultiLevelCache CacheAside WriteAround 100 three_levels)).
  pose (w := world_of [Mock ∅; Mock ∅; holding "cosmos" "carlsagan"] 7).
  pose (w0 := (in_turn (fun h => call_Get h sagan) [0; 1]%nat w).2).
  pose (w1 := (call_Get 2%nat sagan w0).2).
  pose (w2 := (Get 3 through_around (Some sagan) w).2).
  destruct (cache_aside_catches_up WriteAround 100 three_levels through_around ca
              3 sagan w w0 w1 w2 2 2%nat
              [(None, 7, Some "Could not get item");
               (None, 7, Some "Could not get item")]
              "carlsagan" 7 None
              [(CacheStatusSuccess, None); (CacheStatusSuccess, None)])
    as [_ Hex];
    [run | run | count | count | reflexivity | run | repeat constructor | run
    | run | repeat constructor |].
  exact Hex.
Defined.

Lemma mock_write_through_reaches_every_level_witness :
  exists w',
    Put 3 through_through (Some kafka) (Some "franzkafka") 5000
      (world_of [Mock ∅; Mock ∅; Mock ∅] 7)
    = (Val (CacheStatusSuccess, None), w') /\
    Forall (fun h => (call_Get h kafka w').1 = Val (Some "franzkafka", 7, None))
      three_levels /\
    (forall h, h ∉ three_levels ->
       store w' !! h = store (world_of [Mock ∅; Mock ∅; Mock ∅] 7) !! h).
Proof.
  apply (mock_write_through_reaches_every_level ReadThrough 100 three_levels
           through_through 3 kafka (Some "franzkafka") 5000
           (world_of [Mock ∅; Mock ∅; Mock ∅] 7));
    [run | count | count | reflexivity | all_mocks].
Defined.

Lemma mock_store_then_fetch_witness :
  (Get 3 through_back (Some kafka)
     (Put 3 through_back (Some kafka) (Some "franzkafka") 5000
        (world_of [Mock ∅; Mock ∅; Mock ∅] 7)).2).1
  = Val (Some "franzkafka", 7, None).
Proof.
  apply (proj2 (mock_store_then_fetch ReadThrough WriteBack 100 three_levels
                  through_back 3 kafka "franzkafka" 5000
                  (world_of [Mock ∅; Mock ∅; Mock ∅] 7)
                  ltac:(run) ltac:(count) ltac:(count) (or_introl eq_refl)
                  (or_intror eq_refl) eq_refl ltac:(all_mocks))).
Defined.

(* level 1 still holds "carlsagan" when "annedruyan" is stored at level 3 *)
Lemma mock_write_around_stale_fetch_witness :
  (Get 3 through_around (Some sagan)
     (Put 3 through_around (Some sagan) (Some "annedruyan") 5000
        (world_of [holding "cosmos" "carlsagan"; Mock ∅; Mock ∅] 7)).2).1
  = Val (Some "carlsagan", 7, None).
Proof.
  apply (proj2 (mock_write_around_stale_fetch ReadThrough 100 three_levels
                  through_around 3 sagan "annedruyan" "carlsagan" 5000 0%nat 2%nat
                  (world_of [holding "cosmos" "carlsagan"; Mock ∅; Mock ∅] 7)
                  ltac:(run) ltac:(count) ltac:(count) (or_introl eq_refl)
                  eq_refl eq_refl eq_refl ltac:(discriminate)
                  ltac:(eexists; split; reflexivity)
                  ltac:(eexists; reflexivity))).
Defined.

Lemma mock_delete_then_miss_witness :
  (Get 3 through_through (Some kafka)
     (Del 3 through_through (Some kafka)
        (world_of [holding "metamorphosis" "franzkafka";
                   holding "metamorphosis" "franzkafka"; Mock ∅] 7)).2).1
  = Val (None, 7, None).
Proof.
  apply (proj2 (mock_delete_then_miss ReadThrough WriteThrough 100 three_levels
                  through_through 3 kafka
                  (world_of [holding "metamorphosis" "franzkafka";
                             holding "metamorphosis" "franzkafka"; Mock ∅] 7)
                  ltac:(run) ltac:(count) ltac:(count) (or_introl eq_refl)
                  ltac:(all_mocks))).
Defined.

Lemma mock_nil_buffer_present_but_missed_witness :
  exists w',
    Put 3 through_through (Some kafka) None 5000
      (world_of [Mock ∅; Mock ∅; Mock ∅] 7)
    = (Val (CacheStatusSuccess, None), w') /\
    (IsPresent through_through (Some kafka) w').1 = Val (CacheStatusSuccess, None) /\
    (Get 3 through_through (Some kafka) w').1 = Val (None, 7, None).
Proof.
  apply (mock_nil_buffer_present_but_missed ReadThrough 100 three_levels
           through_through 3 kafka 5000 (world_of [Mock ∅; Mock ∅; Mock ∅] 7));
    [run | count | count | left; reflexivity | all_mocks].
Defined.
